(** * Adaptive quiz and interview front-end: a shallow embedding

    The development follows [App.jsx]: the local session store
    ([loadSessions], [saveSession]), the adaptive quiz component [App] with
    its item handlers, and the [InterviewScreen] component.

    Conventions of the embedding.
    - A React component is a record of its [useState]/[useRef] cells.  An
      event handler is a function from the cells it closes over (the state
      at the render that installed it) to the cells after all its setters
      have run, together with the outbound requests it issued.
    - An [await]ed network call is an input of the handler: the handler is
      given what the call produced (a rejection or a response), and runs
      to its end before the next event is handled.  Two handlers racing
      between an [await] and its answer are outside the model.
    - What the user can do is an [event]; [dispatch] routes it to the
      handler of the control, and does nothing when the control is not
      rendered or is disabled in the current state.
    - JavaScript numbers are modelled by exact rationals extended with the
      two infinities and NaN; rounding of IEEE doubles is not modelled.
    - Strings are UTF-8 byte strings; [trim] removes the white space and
      the line terminators of ECMAScript, [substring] counts bytes (the
      UTF-16 units of the code for ASCII text). *)

From Stdlib Require Import QArith Qround ZArith Lia Lqa Bool.
From stdpp Require Import gmap strings list pretty.

Local Open Scope string_scope.
Local Open Scope list_scope.

(** ** JavaScript values used by the program *)

Module Js.

(** A JavaScript number. *)
Inductive num : Type :=
| Fin (q : Q)
| PInf
| NInf
| NaN.

Definition Qlt_bool (x y : Q) : bool := negb (Qle_bool y x).

Definition of_Z (z : Z) : num := Fin (inject_Z z).

(** [a / b] *)
Definition div (a b : num) : num :=
  match a, b with
  | NaN, _ | _, NaN => NaN
  | Fin x, Fin y =>
      if Qeq_bool y 0 then
        if Qlt_bool 0 x then PInf else if Qlt_bool x 0 then NInf else NaN
      else Fin (x / y)
  | Fin _, (PInf | NInf) => Fin 0
  | PInf, Fin y => if Qle_bool 0 y then PInf else NInf
  | NInf, Fin y => if Qle_bool 0 y then NInf else PInf
  | (PInf | NInf), (PInf | NInf) => NaN
  end.

Definition inf_times (pos : bool) (x : Q) : num :=
  if Qlt_bool 0 x then (if pos then PInf else NInf)
  else if Qlt_bool x 0 then (if pos then NInf else PInf)
  else NaN.

(** [a * b] *)
Definition mul (a b : num) : num :=
  match a, b with
  | NaN, _ | _, NaN => NaN
  | Fin x, Fin y => Fin (x * y)
  | Fin x, PInf | PInf, Fin x => inf_times true x
  | Fin x, NInf | NInf, Fin x => inf_times false x
  | PInf, PInf | NInf, NInf => PInf
  | PInf, NInf | NInf, PInf => NInf
  end.

(** [Math.round(a)]: the nearest integer, halves rounded up. *)
Definition round (a : num) : num :=
  match a with
  | Fin x => of_Z (Qfloor (x + (1 # 2)))
  | other => other
  end.

(** [a + b] *)
Definition add (a b : num) : num :=
  match a, b with
  | NaN, _ | _, NaN => NaN
  | Fin x, Fin y => Fin (x + y)
  | PInf, NInf | NInf, PInf => NaN
  | PInf, _ | _, PInf => PInf
  | NInf, _ | _, NInf => NInf
  end.

(** [a >= b] on numbers. *)
Definition ge (a b : num) : bool :=
  match a, b with
  | NaN, _ | _, NaN => false
  | Fin x, Fin y => Qle_bool y x
  | PInf, _ => true
  | _, NInf => true
  | _, _ => false
  end.

(** A property that may be missing from an object: [None] is
    [undefined]. *)
Definition toNumber (v : option num) : num :=
  match v with Some n => n | None => NaN end.

(** Truthiness of a number-or-undefined: [0], [NaN] and [undefined] are
    falsy. *)
Definition truthy (v : option num) : bool :=
  match v with
  | Some (Fin q) => negb (Qeq_bool q 0)
  | Some PInf | Some NInf => true
  | Some NaN | None => false
  end.

(** [v || d] for a numeric default [d]. *)
Definition or_num (v : option num) (d : num) : num :=
  if truthy v then toNumber v else d.

(** Truthiness of a string-or-undefined: the empty string is falsy. *)
Definition truthy_str (v : option string) : bool :=
  match v with
  | Some s => negb (String.eqb s "")
  | None => false
  end.

(** [v || d] on strings. *)
Definition or_str (v : option string) (d : string) : string :=
  match v with
  | Some s => if String.eqb s "" then d else s
  | None => d
  end.

(** [a || b] where both may be missing. *)
Definition or_opt (a b : option string) : option string :=
  if truthy_str a then a else b.

(** What [trim] removes beyond the ASCII white space (tab, line feed,
    vertical tab, form feed, carriage return, space), as UTF-8 bytes:
    U+00A0 in two bytes; U+1680, U+2000..U+200A, U+2028, U+2029, U+202F,
    U+205F, U+3000 and U+FEFF in three. *)
Definition white2 (a b : Ascii.ascii) : bool :=
  ((Ascii.N_of_ascii a =? 194) && (Ascii.N_of_ascii b =? 160))%N.

Definition white3 (a b c : Ascii.ascii) : bool :=
  let x := Ascii.N_of_ascii a in
  let y := Ascii.N_of_ascii b in
  let z := Ascii.N_of_ascii c in
  ((x =? 225) && (y =? 154) && (z =? 128)
   || (x =? 226) && (y =? 128)
      && ((128 <=? z) && (z <=? 138) || (z =? 168) || (z =? 169)
          || (z =? 175))
   || (x =? 226) && (y =? 129) && (z =? 159)
   || (x =? 227) && (y =? 128) && (z =? 128)
   || (x =? 239) && (y =? 187) && (z =? 191))%N.

Fixpoint trimStart (s : string) : string :=
  match s with
  | EmptyString => EmptyString
  | String a r1 =>
      if Ascii.is_space a then trimStart r1
      else
        match r1 with
        | String b r2 =>
            if white2 a b then trimStart r2
            else
              match r2 with
              | String c r3 => if white3 a b c then trimStart r3 else s
              | EmptyString => s
              end
        | EmptyString => s
        end
  end.

(** [trimStart] on the reversed string: the bytes of a character come last
    byte first. *)
Fixpoint trimStartRev (s : string) : string :=
  match s with
  | EmptyString => EmptyString
  | String a r1 =>
      if Ascii.is_space a then trimStartRev r1
      else
        match r1 with
        | String b r2 =>
            if white2 b a then trimStartRev r2
            else
              match r2 with
              | String c r3 => if white3 c b a then trimStartRev r3 else s
              | EmptyString => s
              end
        | EmptyString => s
        end
  end.

(** [s.trim()] *)
Definition trim (s : string) : string :=
  String.rev (trimStartRev (String.rev (trimStart s))).

(** [!s.trim()] *)
Definition blank (s : string) : bool := String.eqb (trim s) "".

(** The outcome of [await fetch(...)] followed by [.json()]: the promise
    rejects (no connection, body that is not JSON) or yields a response
    with its [ok] flag, its status and the decoded body. *)
Inductive fetched (A : Type) : Type :=
| Rejected (message : string)
| Response (ok : bool) (status : nat) (data : A).
Arguments Rejected {A} message.
Arguments Response {A} ok status data.

End Js.

(** ** LocalStorage: the session store *)

Module Store.
Section WithSession.

Variable session : Type.

(** What [localStorage.getItem(STORAGE_KEY)] holds: nothing, text that
    does not parse, or a serialised list of sessions. *)
Inductive cell : Type :=
| Missing
| Garbled
| Stored (all : list session).

Definition loadSessions (c : cell) : list session :=
  match c with
  | Stored all => all
  | Missing | Garbled => []
  end.

(** [all.unshift(s)] then [all.slice(0, 50)]. *)
Definition saveSession (s : session) (c : cell) : cell :=
  let all := s :: loadSessions c in
  Stored (take 50 all).

End WithSession.
Arguments Missing {session}.
Arguments Garbled {session}.
Arguments Stored {session} all.
Arguments loadSessions {session} c.
Arguments saveSession {session} s c.
End Store.


(** ** The adaptive quiz: component [App] *)

Module Quiz.

(** [currentQ.type] *)
Inductive qtype : Type := Mcq | Open | Scenario | OtherType.

Record decision_point : Type := {
  situation : string;
  hint : option string
}.

(** An item as the item service returns it.  Only the properties the
    handlers read are kept. *)
Record item : Type := {
  q_type : qtype;
  q_question : option string;
  q_scenario : option string;
  q_correct : option string;
  q_context : option string;
  q_sample_answer : option string;
  decision_points : option (list decision_point)
}.

(** One completed item, as [handleMCQNext], [handleOpenNext] and
    [handleScenarioNext] build it.  A property an entry does not carry is
    [None]. *)
Record entry : Type := {
  question : option string;
  level : nat;
  difficulty : string;
  isCorrect : bool;
  score : option Js.num;
  max_score : option Js.num;
  timeTaken : option Z;
  e_selected : option string;
  e_correct : option string
}.

(** The grading service's answer for an open response ([/l2/evaluate]) and
    for a scenario ([/l3/evaluate]); the display-only properties are
    left out. *)
Record l2_result : Type := {
  ev_score : option Js.num;
  ev_max_score : option Js.num
}.

Record l3_result : Type := {
  total_score : option Js.num;
  total_max_score : option Js.num
}.

Record session : Type := {
  s_topic : string;
  s_proficiency : string;
  s_level : string;
  s_score : nat;
  total : nat;
  date : string;
  s_history : list entry;
  s_feedback : string
}.

(** The body of [/adaptive/next] *)
Record next_data : Type := {
  d_error : option string;
  d_detail : option string;
  d_question : option item;
  new_level : nat;
  new_difficulty : string
}.

Record next_body : Type := {
  b_topic : string;
  b_proficiency : string;
  current_level : nat;
  current_difficulty : string;
  last_score_pct : Js.num;
  time_taken_ms : Z;
  recent_score_pcts : list Js.num;
  asked_questions : list string
}.

(** Requests a handler sends. *)
Inductive effect : Type :=
| AdaptiveStart (topic proficiency : string)
| AdaptiveNext (body : next_body)
| L2Evaluate (question : option string) (context user_answer : string)
    (sample_answer : option string) (proficiency : string)
| L3Evaluate (scenario : option string)
    (points : option (list decision_point))
    (user_answers : gmap nat string) (proficiency : string)
| Feedback (topic : string) (history : list entry)
| SessionSave (topic : string) (score max : nat) (feedback : string).

Inductive screen_t : Type :=
| Start | AdaptiveQuiz | Results | Analytics | Improvement | InterviewTab.

(** *** State cells, grouped as in the source *)

(** "Adaptive core" *)
Record core : Type := {
  qIndex : nat;
  currentQ : option item;
  currentLevel : nat;
  currentDiff : string;
  recentScores : list Js.num;
  askedQuestions : list (option string);
  history : list entry;
  startTimeRef : option Z
}.

(** "L1" *)
Record l1 : Type := {
  selected : option string;
  revealed : bool
}.

(** "L2" *)
Record l2 : Type := {
  openAnswer : string;
  evaluation : option l2_result;
  showHint : bool;
  evalLoading : bool
}.

(** "L3" *)
Record l3 : Type := {
  currentStep : nat;
  stepAnswers : gmap nat string;
  stepHint : bool;
  scenarioEval : option l3_result
}.

(** "Results" *)
Record results : Type := {
  feedback : string;
  feedbackLoading : bool;
  quizError : option string
}.

Record state : Type := {
  screen : screen_t;
  topic : string;
  proficiency : string;
  numQuestions : nat;
  loading : bool;
  sessions : list session;
  st_core : core;
  st_l1 : l1;
  st_l2 : l2;
  st_l3 : l3;
  st_results : results;
  (** the browser's [localStorage] entry *)
  storage : Store.cell session
}.

(** *** Setters *)

Definition setScreen (v : screen_t) (s : state) : state :=
  {| screen := v; topic := topic s; proficiency := proficiency s;
     numQuestions := numQuestions s; loading := loading s;
     sessions := sessions s; st_core := st_core s; st_l1 := st_l1 s;
     st_l2 := st_l2 s; st_l3 := st_l3 s; st_results := st_results s;
     storage := storage s |}.

Definition setTopic (v : string) (s : state) : state :=
  {| screen := screen s; topic := v; proficiency := proficiency s;
     numQuestions := numQuestions s; loading := loading s;
     sessions := sessions s; st_core := st_core s; st_l1 := st_l1 s;
     st_l2 := st_l2 s; st_l3 := st_l3 s; st_results := st_results s;
     storage := storage s |}.

Definition setProficiency (v : string) (s : state) : state :=
  {| screen := screen s; topic := topic s; proficiency := v;
     numQuestions := numQuestions s; loading := loading s;
     sessions := sessions s; st_core := st_core s; st_l1 := st_l1 s;
     st_l2 := st_l2 s; st_l3 := st_l3 s; st_results := st_results s;
     storage := storage s |}.

Definition setNumQuestions (v : nat) (s : state) : state :=
  {| screen := screen s; topic := topic s; proficiency := proficiency s;
     numQuestions := v; loading := loading s;
     sessions := sessions s; st_core := st_core s; st_l1 := st_l1 s;
     st_l2 := st_l2 s; st_l3 := st_l3 s; st_results := st_results s;
     storage := storage s |}.

Definition setLoading (v : bool) (s : state) : state :=
  {| screen := screen s; topic := topic s; proficiency := proficiency s;
     numQuestions := numQuestions s; loading := v;
     sessions := sessions s; st_core := st_core s; st_l1 := st_l1 s;
     st_l2 := st_l2 s; st_l3 := st_l3 s; st_results := st_results s;
     storage := storage s |}.

Definition setSessions (v : list session) (s : state) : state :=
  {| screen := screen s; topic := topic s; proficiency := proficiency s;
     numQuestions := numQuestions s; loading := loading s;
     sessions := v; st_core := st_core s; st_l1 := st_l1 s;
     st_l2 := st_l2 s; st_l3 := st_l3 s; st_results := st_results s;
     storage := storage s |}.

Definition with_core (f : core -> core) (s : state) : state :=
  {| screen := screen s; topic := topic s; proficiency := proficiency s;
     numQuestions := numQuestions s; loading := loading s;
     sessions := sessions s; st_core := f (st_core s); st_l1 := st_l1 s;
     st_l2 := st_l2 s; st_l3 := st_l3 s; st_results := st_results s;
     storage := storage s |}.

Definition with_l1 (f : l1 -> l1) (s : state) : state :=
  {| screen := screen s; topic := topic s; proficiency := proficiency s;
     numQuestions := numQuestions s; loading := loading s;
     sessions := sessions s; st_core := st_core s; st_l1 := f (st_l1 s);
     st_l2 := st_l2 s; st_l3 := st_l3 s; st_results := st_results s;
     storage := storage s |}.

Definition with_l2 (f : l2 -> l2) (s : state) : state :=
  {| screen := screen s; topic := topic s; proficiency := proficiency s;
     numQuestions := numQuestions s; loading := loading s;
     sessions := sessions s; st_core := st_core s; st_l1 := st_l1 s;
     st_l2 := f (st_l2 s); st_l3 := st_l3 s; st_results := st_results s;
     storage := storage s |}.

Definition with_l3 (f : l3 -> l3) (s : state) : state :=
  {| screen := screen s; topic := topic s; proficiency := proficiency s;
     numQuestions := numQuestions s; loading := loading s;
     sessions := sessions s; st_core := st_core s; st_l1 := st_l1 s;
     st_l2 := st_l2 s; st_l3 := f (st_l3 s); st_results := st_results s;
     storage := storage s |}.

Definition with_results (f : results -> results) (s : state) : state :=
  {| screen := screen s; topic := topic s; proficiency := proficiency s;
     numQuestions := numQuestions s; loading := loading s;
     sessions := sessions s; st_core := st_core s; st_l1 := st_l1 s;
     st_l2 := st_l2 s; st_l3 := st_l3 s; st_results := f (st_results s);
     storage := storage s |}.

Definition with_storage
    (f : Store.cell session -> Store.cell session) (s : state) : state :=
  {| screen := screen s; topic := topic s; proficiency := proficiency s;
     numQuestions := numQuestions s; loading := loading s;
     sessions := sessions s; st_core := st_core s; st_l1 := st_l1 s;
     st_l2 := st_l2 s; st_l3 := st_l3 s; st_results := st_results s;
     storage := f (storage s) |}.

Definition setQIndex (f : nat -> nat) : state -> state :=
  with_core (fun c =>
    {| qIndex := f (qIndex c); currentQ := currentQ c;
       currentLevel := currentLevel c; currentDiff := currentDiff c;
       recentScores := recentScores c; askedQuestions := askedQuestions c;
       history := history c; startTimeRef := startTimeRef c |}).

Definition setCurrentQ (v : option item) : state -> state :=
  with_core (fun c =>
    {| qIndex := qIndex c; currentQ := v;
       currentLevel := currentLevel c; currentDiff := currentDiff c;
       recentScores := recentScores c; askedQuestions := askedQuestions c;
       history := history c; startTimeRef := startTimeRef c |}).

Definition setCurrentLevel (v : nat) : state -> state :=
  with_core (fun c =>
    {| qIndex := qIndex c; currentQ := currentQ c;
       currentLevel := v; currentDiff := currentDiff c;
       recentScores := recentScores c; askedQuestions := askedQuestions c;
       history := history c; startTimeRef := startTimeRef c |}).

Definition setCurrentDiff (v : string) : state -> state :=
  with_core (fun c =>
    {| qIndex := qIndex c; currentQ := currentQ c;
       currentLevel := currentLevel c; currentDiff := v;
       recentScores := recentScores c; askedQuestions := askedQuestions c;
       history := history c; startTimeRef := startTimeRef c |}).

Definition setRecentScores (v : list Js.num) : state -> state :=
  with_core (fun c =>
    {| qIndex := qIndex c; currentQ := currentQ c;
       currentLevel := currentLevel c; currentDiff := currentDiff c;
       recentScores := v; askedQuestions := askedQuestions c;
       history := history c; startTimeRef := startTimeRef c |}).

Definition setAsked (v : list (option string)) : state -> state :=
  with_core (fun c =>
    {| qIndex := qIndex c; currentQ := currentQ c;
       currentLevel := currentLevel c; currentDiff := currentDiff c;
       recentScores := recentScores c; askedQuestions := v;
       history := history c; startTimeRef := startTimeRef c |}).

Definition setHistory (v : list entry) : state -> state :=
  with_core (fun c =>
    {| qIndex := qIndex c; currentQ := currentQ c;
       currentLevel := currentLevel c; currentDiff := currentDiff c;
       recentScores := recentScores c; askedQuestions := askedQuestions c;
       history := v; startTimeRef := startTimeRef c |}).

(** [startTimeRef.current = v] *)
Definition setStartTime (v : Z) : state -> state :=
  with_core (fun c =>
    {| qIndex := qIndex c; currentQ := currentQ c;
       currentLevel := currentLevel c; currentDiff := currentDiff c;
       recentScores := recentScores c; askedQuestions := askedQuestions c;
       history := history c; startTimeRef := Some v |}).

Definition setSelected (v : option string) : state -> state :=
  with_l1 (fun c => {| selected := v; revealed := revealed c |}).

Definition setRevealed (v : bool) : state -> state :=
  with_l1 (fun c => {| selected := selected c; revealed := v |}).

Definition setOpenAnswer (v : string) : state -> state :=
  with_l2 (fun c =>
    {| openAnswer := v; evaluation := evaluation c;
       showHint := showHint c; evalLoading := evalLoading c |}).

Definition setEval (v : option l2_result) : state -> state :=
  with_l2 (fun c =>
    {| openAnswer := openAnswer c; evaluation := v;
       showHint := showHint c; evalLoading := evalLoading c |}).

Definition setShowHint (f : bool -> bool) : state -> state :=
  with_l2 (fun c =>
    {| openAnswer := openAnswer c; evaluation := evaluation c;
       showHint := f (showHint c); evalLoading := evalLoading c |}).

Definition setEvalLoading (v : bool) : state -> state :=
  with_l2 (fun c =>
    {| openAnswer := openAnswer c; evaluation := evaluation c;
       showHint := showHint c; evalLoading := v |}).

Definition setCurrentStep (f : nat -> nat) : state -> state :=
  with_l3 (fun c =>
    {| currentStep := f (currentStep c); stepAnswers := stepAnswers c;
       stepHint := stepHint c; scenarioEval := scenarioEval c |}).

Definition setStepAnswers
    (f : gmap nat string -> gmap nat string) : state -> state :=
  with_l3 (fun c =>
    {| currentStep := currentStep c; stepAnswers := f (stepAnswers c);
       stepHint := stepHint c; scenarioEval := scenarioEval c |}).

Definition setStepHint (f : bool -> bool) : state -> state :=
  with_l3 (fun c =>
    {| currentStep := currentStep c; stepAnswers := stepAnswers c;
       stepHint := f (stepHint c); scenarioEval := scenarioEval c |}).

Definition setScenarioEval (v : option l3_result) : state -> state :=
  with_l3 (fun c =>
    {| currentStep := currentStep c; stepAnswers := stepAnswers c;
       stepHint := stepHint c; scenarioEval := v |}).

Definition setFeedback (v : string) : state -> state :=
  with_results (fun c =>
    {| feedback := v; feedbackLoading := feedbackLoading c;
       quizError := quizError c |}).

Definition setFBLoad (v : bool) : state -> state :=
  with_results (fun c =>
    {| feedback := feedback c; feedbackLoading := v;
       quizError := quizError c |}).

Definition setQuizError (v : option string) : state -> state :=
  with_results (fun c =>
    {| feedback := feedback c; feedbackLoading := feedbackLoading c;
       quizError := v |}).

(** *** Handlers *)

Local Notation "s |> f" := (f s) (at level 45, left associativity, only parsing).

(** The predicate under [filter] in [finishQuiz] and [resultScore]:
    [h.isCorrect || (h.score >= (h.max_score || 10) * 0.6)]. *)
Definition passed (h : entry) : bool :=
  isCorrect h
  || Js.ge (Js.toNumber (score h))
       (Js.mul (Js.or_num (max_score h) (Js.of_Z 10)) (Js.Fin (6 # 10))).

(** The tally the results screen displays. *)
Definition resultScore (s : state) : nat :=
  length (List.filter passed (history (st_core s))).


Definition resetSubState (s : state) : state :=
  s |> setSelected None |> setRevealed false
    |> setOpenAnswer "" |> setEval None |> setShowHint (fun _ => false)
    |> setCurrentStep (fun _ => 1) |> setStepAnswers (fun _ => ∅)
    |> setStepHint (fun _ => false) |> setScenarioEval None.

(** [newHistory.map(h => h.question).filter(Boolean)] *)
Definition asked_of (newHistory : list entry) : list string :=
  omap (fun h => if Js.truthy_str (question h) then question h else None)
       newHistory.

(** [startQuiz]; [arrived] is [Date.now()] once the first item is in.  The
    effect hooked on [screen] reloads [sessions] when the screen changes. *)
Definition startQuiz (arrived : Z) (r : Js.fetched (option item))
    (c : state) : state * list effect :=
  if Js.blank (topic c) then (c, [])
  else
    let s1 :=
      c |> setLoading true |> setQuizError None
        |> setHistory [] |> setRecentScores [] |> setAsked []
        |> setQIndex (fun _ => 1)
        |> setCurrentLevel 1 |> setCurrentDiff "medium"
        |> resetSubState |> setFeedback "" in
    let failed :=
      setQuizError
        (Some "Failed to start quiz. Please check the server is running.") in
    let s2 :=
      match r with
      | Js.Rejected _ => s1 |> failed
      | Js.Response _ _ None => s1 |> setCurrentQ None |> failed
      | Js.Response _ _ (Some q) =>
          s1 |> setCurrentQ (Some q)
             |> setAsked [Js.or_opt (q_scenario q) (q_question q)]
             |> setScreen AdaptiveQuiz
             |> setSessions (Store.loadSessions (storage c))
             |> setStartTime arrived
      end in
    (s2 |> setLoading false, [AdaptiveStart (topic c) (proficiency c)]).

(** What the [try] block of [fetchNextQuestion] ends with: the message of
    the error it throws, or the item it accepts. *)
Definition next_outcome (r : Js.fetched next_data) : string + item * next_data :=
  match r with
  | Js.Rejected message => inl message
  | Js.Response ok status data =>
      if negb ok || Js.truthy_str (d_error data) then
        inl (Js.or_str (d_detail data)
               (Js.or_str (d_error data) ("Server error " +:+ pretty status)))
      else
        match d_question data with
        | None => inl "Server returned an empty question. Please try again."
        | Some q => inr (q, data)
        end
  end.

(** [fetchNextQuestion]: [c] is the render the handler closes over, [s]
    the cells after the setters the caller already ran. *)
Definition fetchNextQuestion (c : state) (newHistory : list entry)
    (newScores : list Js.num) (lastScorePct : Js.num) (timeTaken : Z)
    (arrived : Z) (r : Js.fetched next_data) (s : state)
    : state * list effect :=
  let s1 := s |> setLoading true |> setQuizError None in
  let asked := asked_of newHistory in
  let body :=
    {| b_topic := topic c; b_proficiency := proficiency c;
       current_level := currentLevel (st_core c);
       current_difficulty := currentDiff (st_core c);
       last_score_pct := lastScorePct; time_taken_ms := timeTaken;
       recent_score_pcts := newScores; asked_questions := asked |} in
  let s2 :=
    match next_outcome r with
    | inl message =>
        s1 |> setQuizError
                (Some (Js.or_str (Some message)
                         "Failed to generate next question."))
    | inr (q, data) =>
        s1 |> setCurrentQ (Some q)
           |> setCurrentLevel (new_level data)
           |> setCurrentDiff (new_difficulty data)
           |> setAsked ((Some <$> asked)
                          ++ [Js.or_opt (q_scenario q) (q_question q)])
           |> setQIndex S |> resetSubState |> setStartTime arrived
    end in
  (s2 |> setLoading false, [AdaptiveNext body]).

(** What [finishQuiz] reads from outside: the formatted date, the answer
    of [/feedback] (its [feedback] property) and of [/session/save]. *)
Record finish_io : Type := {
  today : string;
  fb : Js.fetched (option string);
  saved : Js.fetched unit
}.

Definition finishQuiz (c : state) (finalHistory : list entry)
    (io : finish_io) (s : state) : state * list effect :=
  let score := length (List.filter passed finalHistory) in
  let sealed :=
    {| s_topic := topic c; s_proficiency := proficiency c;
       s_level := "adaptive"; s_score := score; total := numQuestions c;
       date := today io; s_history := finalHistory; s_feedback := "" |} in
  let s1 := s |> with_storage (Store.saveSession sealed) in
  let s2 :=
    s1 |> setSessions (Store.loadSessions (storage s1))
       |> setScreen Results |> setFBLoad true in
  let unavailable := setFeedback "Could not generate feedback." in
  let '(s3, sent) :=
    match fb io with
    | Js.Rejected _ => (s2 |> unavailable, [])
    | Js.Response _ _ res =>
        let s' := s2 |> setFeedback (Js.or_str res "") in
        let save :=
          SessionSave (topic c) score (numQuestions c) (Js.or_str res "") in
        match saved io with
        | Js.Rejected _ => (s' |> unavailable, [save])
        | Js.Response _ _ _ => (s', [save])
        end
    end in
  (s3 |> setFBLoad false, Feedback (topic c) finalHistory :: sent).

(** What a "next" handler reads from outside: [Date.now()] at the click,
    then either the item service's answer and [Date.now()] at its arrival,
    or what [finishQuiz] reads. *)
Record next_io : Type := {
  clicked : Z;
  next : Js.fetched next_data;
  arrived_at : Z;
  finish : finish_io
}.

(** [Date.now() - startTimeRef.current]; a [null] reference counts as 0. *)
Definition since (now : Z) (start : option Z) : Z :=
  (now - default 0 start)%Z.

(** The common tail of the three "next" handlers. *)
Definition advance (c : state) (e : entry) (scorePct : Js.num)
    (timeTaken : Z) (io : next_io) : state * list effect :=
  let newHistory := history (st_core c) ++ [e] in
  let s1 := c |> setHistory newHistory in
  let newScores := recentScores (st_core c) ++ [scorePct] in
  let s2 := s1 |> setRecentScores newScores in
  if (numQuestions c <=? qIndex (st_core c))%nat then
    finishQuiz c newHistory (finish io) s2
  else
    fetchNextQuestion c newHistory newScores scorePct timeTaken
      (arrived_at io) (next io) s2.

(** [selected === currentQ.correct] *)
Definition same_key (a b : option string) : bool :=
  match a, b with
  | Some x, Some y => String.eqb x y
  | _, _ => false
  end.

Definition handleMCQNext (io : next_io) (c : state) : state * list effect :=
  match currentQ (st_core c) with
  | None => (c, [])
  | Some q =>
      let timeTaken := since (clicked io) (startTimeRef (st_core c)) in
      let correct := same_key (selected (st_l1 c)) (q_correct q) in
      let scorePct := if correct then Js.of_Z 100 else Js.of_Z 0 in
      let e :=
        {| question := q_question q; level := 1;
           difficulty := currentDiff (st_core c); isCorrect := correct;
           score := None; max_score := None;
           timeTaken := Some timeTaken;
           e_selected := selected (st_l1 c); e_correct := q_correct q |} in
      advance c e scorePct timeTaken io
  end.

(** [Math.round((a / b) * 100)] *)
Definition percent (a b : option Js.num) : Js.num :=
  Js.round (Js.mul (Js.div (Js.toNumber a) (Js.toNumber b)) (Js.of_Z 100)).

Definition submitOpenAnswer (r : Js.fetched (option l2_result)) (c : state)
    : state * list effect :=
  if Js.blank (openAnswer (st_l2 c)) then (c, [])
  else
    let s1 := c |> setEvalLoading true in
    match currentQ (st_core c) with
    | None => (s1, [])
    | Some q =>
        let sent :=
          L2Evaluate (q_question q) (Js.or_str (q_context q) "")
            (openAnswer (st_l2 c)) (q_sample_answer q) (proficiency c) in
        match r with
        | Js.Rejected _ => (s1, [sent])
        | Js.Response _ _ result =>
            (s1 |> setEval result |> setEvalLoading false, [sent])
        end
    end.

Definition handleOpenNext (io : next_io) (c : state) : state * list effect :=
  match evaluation (st_l2 c), currentQ (st_core c) with
  | Some ev, Some q =>
      let scorePct := percent (ev_score ev) (ev_max_score ev) in
      let timeTaken := since (clicked io) (startTimeRef (st_core c)) in
      let e :=
        {| question := q_question q; level := 2;
           difficulty := currentDiff (st_core c);
           isCorrect := Js.ge scorePct (Js.of_Z 60);
           score := ev_score ev; max_score := ev_max_score ev;
           timeTaken := None; e_selected := None; e_correct := None |} in
      advance c e scorePct timeTaken io
  | _, _ => (c, [])
  end.

(** [currentQ.decision_points?.length || 3] *)
Definition totalSteps (q : item) : nat :=
  match decision_points q with
  | Some (p :: ps) => length (p :: ps)
  | Some [] | None => 3
  end.

Definition handleStepNext (r : Js.fetched (option l3_result)) (c : state)
    : state * list effect :=
  let ans :=
    Js.trim
      (Js.or_str (stepAnswers (st_l3 c) !! currentStep (st_l3 c)) "") in
  if String.eqb ans "" then (c, [])
  else
    match currentQ (st_core c) with
    | None => (c, [])
    | Some q =>
        if (currentStep (st_l3 c) <? totalSteps q)%nat then
          (c |> setCurrentStep S |> setStepHint (fun _ => false), [])
        else
          let s1 := c |> setEvalLoading true in
          let sent :=
            L3Evaluate (q_scenario q) (decision_points q)
              (stepAnswers (st_l3 c)) (proficiency c) in
          match r with
          | Js.Rejected _ => (s1, [sent])
          | Js.Response _ _ result =>
              (s1 |> setScenarioEval result |> setEvalLoading false, [sent])
          end
    end.

Definition handleScenarioNext (io : next_io) (c : state)
    : state * list effect :=
  match scenarioEval (st_l3 c), currentQ (st_core c) with
  | Some ev, Some q =>
      let scorePct :=
        if Js.truthy (total_max_score ev)
        then percent (total_score ev) (total_max_score ev)
        else Js.of_Z 0 in
      let timeTaken := since (clicked io) (startTimeRef (st_core c)) in
      let e :=
        {| question := Some (String.substring 0 120 (Js.or_str (q_scenario q) ""));
           level := 3; difficulty := currentDiff (st_core c);
           isCorrect := Js.ge scorePct (Js.of_Z 60);
           score := total_score ev; max_score := total_max_score ev;
           timeTaken := None; e_selected := None; e_correct := None |} in
      advance c e scorePct timeTaken io
  | _, _ => (c, [])
  end.

(** The three handlers a completed item goes through. *)
Definition next_handlers : list (next_io → state → state * list effect) :=
  [handleMCQNext; handleOpenNext; handleScenarioNext].

Definition restart (c : state) : state :=
  c |> setSessions (Store.loadSessions (storage c))
    |> setScreen Start |> setTopic "" |> setHistory [] |> setFeedback ""
    |> setRecentScores [] |> setAsked [] |> setCurrentQ None
    |> resetSubState |> setQuizError None.

(** *** What is on screen, and which control reaches which handler *)

(** The card the quiz screen renders. *)
Inductive view : Type :=
| Spinner | ErrorBox | McqCard | OpenCard | EvalPanel | Stepper
| ScenarioEvalPanel | Nothing.

#[global] Instance screen_eq_dec : EqDecision screen_t.
Proof. solve_decision. Defined.

#[global] Instance view_eq_dec : EqDecision view.
Proof. solve_decision. Defined.

Definition quiz_view (s : state) : view :=
  if loading s then Spinner
  else if Js.truthy_str (quizError (st_results s)) then ErrorBox
  else
    match currentQ (st_core s) with
    | None => Nothing
    | Some q =>
        match q_type q, evaluation (st_l2 s), scenarioEval (st_l3 s) with
        | Mcq, None, _ => McqCard
        | Open, None, _ => OpenCard
        | Open, Some _, _ => EvalPanel
        | Scenario, _, None => Stepper
        | Scenario, _, Some _ => ScenarioEvalPanel
        | _, _, _ => Nothing
        end
    end.

Definition showing (v : view) (s : state) : bool :=
  bool_decide (screen s = AdaptiveQuiz) && bool_decide (quiz_view s = v).

(** [stepAnswers[currentStep] || ""] *)
Definition stepAnswer (s : state) : string :=
  Js.or_str (stepAnswers (st_l3 s) !! currentStep (st_l3 s)) "".

(** What the user can do. *)
Inductive event : Type :=
| ClickNav (target : screen_t)
| TypeTopic (text : string)
| PickProficiency (value : string)
| SlideQuestions (n : nat)
| ClickStart (arrived : Z) (r : Js.fetched (option item))
| ClickOption (key : string)
| ClickMCQNext (io : next_io)
| ToggleHint
| TypeOpenAnswer (text : string)
| ClickSubmitOpen (r : Js.fetched (option l2_result))
| ClickOpenNext (io : next_io)
| ToggleStepHint
| TypeStepAnswer (text : string)
| ClickStepNext (r : Js.fetched (option l3_result))
| ClickScenarioNext (io : next_io)
| ClickRetry
| ClickStartOver
| ClickTryAgain
| ClickViewAnalytics.

(** Leaving for another screen; the effect hooked on [screen] reloads the
    stored sessions. *)
Definition goto (target : screen_t) (s : state) : state :=
  s |> setScreen target |> setSessions (Store.loadSessions (storage s)).

(** A control that is not rendered, or is disabled, cannot be used: the
    event then changes nothing. *)
Definition dispatch (ev : event) (s : state) : state * list effect :=
  let idle := (s, []) in
  let at_start := bool_decide (screen s = Start) in
  match ev with
  | ClickNav target =>
      match target with
      | Start | Analytics | Improvement | InterviewTab => (goto target s, [])
      | AdaptiveQuiz | Results => idle
      end
  | TypeTopic text => if at_start then (setTopic text s, []) else idle
  | PickProficiency value =>
      if at_start then (setProficiency value s, []) else idle
  | SlideQuestions n =>
      if at_start && (3 <=? n)%nat && (n <=? 50)%nat
      then (setNumQuestions n s, []) else idle
  | ClickStart arrived r =>
      if at_start && negb (loading s || Js.blank (topic s))
      then startQuiz arrived r s else idle
  | ClickOption key =>
      if showing McqCard s && negb (revealed (st_l1 s))
      then (s |> setSelected (Some key) |> setRevealed true, []) else idle
  | ClickMCQNext io =>
      if showing McqCard s && revealed (st_l1 s)
      then handleMCQNext io s else idle
  | ToggleHint =>
      if showing OpenCard s then (setShowHint negb s, []) else idle
  | TypeOpenAnswer text =>
      if showing OpenCard s then (setOpenAnswer text s, []) else idle
  | ClickSubmitOpen r =>
      if showing OpenCard s
         && negb (evalLoading (st_l2 s) || Js.blank (openAnswer (st_l2 s)))
      then submitOpenAnswer r s else idle
  | ClickOpenNext io =>
      if showing EvalPanel s then handleOpenNext io s else idle
  | ToggleStepHint =>
      if showing Stepper s then (setStepHint negb s, []) else idle
  | TypeStepAnswer text =>
      if showing Stepper s
      then (setStepAnswers (insert (currentStep (st_l3 s)) text) s, [])
      else idle
  | ClickStepNext r =>
      if showing Stepper s
         && negb (evalLoading (st_l2 s) || Js.blank (stepAnswer s))
      then handleStepNext r s else idle
  | ClickScenarioNext io =>
      if showing ScenarioEvalPanel s then handleScenarioNext io s else idle
  | ClickRetry =>
      if showing ErrorBox s then (setQuizError None s, []) else idle
  | ClickStartOver =>
      if showing ErrorBox s then (restart s, []) else idle
  | ClickTryAgain =>
      if bool_decide (screen s = Results) then (restart s, []) else idle
  | ClickViewAnalytics =>
      if bool_decide (screen s = Results) then (goto Analytics s, [])
      else idle
  end.

(** A run: the events in order, with everything that was sent. *)
Fixpoint run (evs : list event) (s : state) : state * list effect :=
  match evs with
  | [] => (s, [])
  | ev :: rest =>
      let '(s1, sent1) := dispatch ev s in
      let '(s2, sent2) := run rest s1 in
      (s2, sent1 ++ sent2)
  end.

(** The cells at mount, over what the browser has stored. *)
Definition initial (stored : Store.cell session) : state :=
  {| screen := Start; topic := ""; proficiency := "intermediate";
     numQuestions := 15; loading := false;
     sessions := Store.loadSessions stored;
     st_core :=
       {| qIndex := 0; currentQ := None; currentLevel := 1;
          currentDiff := "medium"; recentScores := [];
          askedQuestions := []; history := []; startTimeRef := None |};
     st_l1 := {| selected := None; revealed := false |};
     st_l2 :=
       {| openAnswer := ""; evaluation := None; showHint := false;
          evalLoading := false |};
     st_l3 :=
       {| currentStep := 1; stepAnswers := ∅; stepHint := false;
          scenarioEval := None |};
     st_results :=
       {| feedback := ""; feedbackLoading := false; quizError := None |};
     storage := stored |}.

(** The states a learner can bring about. *)
Inductive reachable : state → Prop :=
| reachable_initial stored : reachable (initial stored)
| reachable_dispatch s ev : reachable s → reachable (dispatch ev s).1.

(** The stepper is well formed: the pointer is within the steps of the
    current item, answers exist only for the steps up to the pointer, and
    every step behind the pointer has an answer that is not blank. *)
Definition stepper_inv (s : state) : Prop :=
  let k := currentStep (st_l3 s) in
  let m := stepAnswers (st_l3 s) in
  (1 ≤ k)%nat
  ∧ (∀ q, currentQ (st_core s) = Some q → (k ≤ totalSteps q)%nat)
  ∧ (∀ j text, m !! j = Some text → (1 ≤ j ≤ k)%nat)
  ∧ (∀ j, (1 ≤ j < k)%nat → ∃ text, m !! j = Some text ∧ Js.blank text = false).

(** Two ways a handler can leave the stepper: untouched, with the same
    item, or reset. *)
Definition same_item (s s' : state) : Prop :=
  currentQ (st_core s') = currentQ (st_core s)
  ∧ currentStep (st_l3 s') = currentStep (st_l3 s)
  ∧ stepAnswers (st_l3 s') = stepAnswers (st_l3 s).

Definition reset_l3 (s' : state) : Prop :=
  currentStep (st_l3 s') = 1 ∧ stepAnswers (st_l3 s') = ∅.

(** The fetch of a next item, where the event makes one, is answered with
    an item. *)
Definition fetch_succeeds (ev : event) : Prop :=
  match ev with
  | ClickMCQNext io | ClickOpenNext io | ClickScenarioNext io =>
      ∃ q data, next_outcome (next io) = inr (q, data)
  | _ => True
  end.

(** The quiz counts its items: the configured total is within the
    slider's range, during the quiz the history holds one entry per item
    before the current one, and every session stored since [stored0] has
    as many entries as its total. *)
Definition counted (stored0 : Store.cell session) (s : state) : Prop :=
  (3 ≤ numQuestions s ≤ 50)%nat
  ∧ (screen s = AdaptiveQuiz →
       (1 ≤ qIndex (st_core s) ≤ numQuestions s)%nat
       ∧ length (history (st_core s)) + 1 = qIndex (st_core s))
  ∧ (∀ sealed, sealed ∈ Store.loadSessions (storage s) →
       sealed ∈ Store.loadSessions stored0
       ∨ length (s_history sealed) = total sealed).

(** A list of requests without a scenario grading request. *)
Definition no_l3 (sent : list effect) : Prop :=
  ∀ sc pts answers prof, L3Evaluate sc pts answers prof ∉ sent.

End Quiz.

(** ** The spoken interview: component [InterviewScreen] *)

Module Interview.

(** ["setup"], ["interview"], ["results"] *)
Inductive phase_t : Type := Setup | Active | Done.

(** ["idle"], ["loading-q"], ["recording"], ["transcribing"],
    ["evaluating"], ["analyzing"] *)
Inductive status_t : Type :=
| Idle | LoadingQ | Recording | Transcribing | Evaluating | Analyzing.

#[global] Instance phase_eq_dec : EqDecision phase_t.
Proof. solve_decision. Defined.

#[global] Instance status_eq_dec : EqDecision status_t.
Proof. solve_decision. Defined.

Record iv_question : Type := {
  question : string;
  expected_concepts : list string
}.

(** The answer of [/interview/evaluate]. *)
Record iv_eval : Type := {
  score : option Js.num;
  grade : option string;
  concepts_missing : list string
}.

(** One graded turn of [history]. *)
Record exchange : Type := {
  x_question : string;
  user_answer : string;
  x_score : option Js.num;
  x_grade : option string;
  x_concepts_missing : list string
}.

(** One line of the chat, by its [type]. *)
Inductive message : Type :=
| Ai (text : string) (qData : iv_question)
| User (text : string)
| Eval (data : iv_eval)
| Error (text : string).

Record analysis_t : Type := {
  overall_score : option Js.num;
  summary : option string
}.

Record state : Type := {
  phase : phase_t;
  ivTopic : string;
  ivProf : string;
  ivNumQ : nat;
  qNum : nat;
  currentQ : option iv_question;
  messages : list message;
  history : list exchange;
  askedQs : list string;
  isRecording : bool;
  status : status_t;
  transcript : string;
  analysis : option analysis_t;
  analysisPending : bool;
  isMuted : bool;
  (** [mediaRef.current]: the recorder last started, by its number *)
  mediaRef : option nat;
  (** [window.speechSynthesis]: its utterance queue, [None] where the
      browser has no speech synthesis *)
  synth : option (list string);
  (** the recorders that are capturing (started, stream not stopped) *)
  live : list nat;
  (** how many recorders were created so far *)
  made : nat
}.

(** *** Setters *)

Definition setPhase (v : phase_t) (s : state) : state :=
  {| phase := v; ivTopic := ivTopic s; ivProf := ivProf s;
     ivNumQ := ivNumQ s; qNum := qNum s; currentQ := currentQ s;
     messages := messages s; history := history s; askedQs := askedQs s;
     isRecording := isRecording s; status := status s;
     transcript := transcript s; analysis := analysis s;
     analysisPending := analysisPending s; isMuted := isMuted s;
     mediaRef := mediaRef s; synth := synth s; live := live s;
     made := made s |}.

Definition setIvTopic (v : string) (s : state) : state :=
  {| phase := phase s; ivTopic := v; ivProf := ivProf s;
     ivNumQ := ivNumQ s; qNum := qNum s; currentQ := currentQ s;
     messages := messages s; history := history s; askedQs := askedQs s;
     isRecording := isRecording s; status := status s;
     transcript := transcript s; analysis := analysis s;
     analysisPending := analysisPending s; isMuted := isMuted s;
     mediaRef := mediaRef s; synth := synth s; live := live s;
     made := made s |}.

Definition setIvProf (v : string) (s : state) : state :=
  {| phase := phase s; ivTopic := ivTopic s; ivProf := v;
     ivNumQ := ivNumQ s; qNum := qNum s; currentQ := currentQ s;
     messages := messages s; history := history s; askedQs := askedQs s;
     isRecording := isRecording s; status := status s;
     transcript := transcript s; analysis := analysis s;
     analysisPending := analysisPending s; isMuted := isMuted s;
     mediaRef := mediaRef s; synth := synth s; live := live s;
     made := made s |}.

Definition setIvNumQ (v : nat) (s : state) : state :=
  {| phase := phase s; ivTopic := ivTopic s; ivProf := ivProf s;
     ivNumQ := v; qNum := qNum s; currentQ := currentQ s;
     messages := messages s; history := history s; askedQs := askedQs s;
     isRecording := isRecording s; status := status s;
     transcript := transcript s; analysis := analysis s;
     analysisPending := analysisPending s; isMuted := isMuted s;
     mediaRef := mediaRef s; synth := synth s; live := live s;
     made := made s |}.

Definition setQNum (v : nat) (s : state) : state :=
  {| phase := phase s; ivTopic := ivTopic s; ivProf := ivProf s;
     ivNumQ := ivNumQ s; qNum := v; currentQ := currentQ s;
     messages := messages s; history := history s; askedQs := askedQs s;
     isRecording := isRecording s; status := status s;
     transcript := transcript s; analysis := analysis s;
     analysisPending := analysisPending s; isMuted := isMuted s;
     mediaRef := mediaRef s; synth := synth s; live := live s;
     made := made s |}.

Definition setCurrentQ (v : option iv_question) (s : state) : state :=
  {| phase := phase s; ivTopic := ivTopic s; ivProf := ivProf s;
     ivNumQ := ivNumQ s; qNum := qNum s; currentQ := v;
     messages := messages s; history := history s; askedQs := askedQs s;
     isRecording := isRecording s; status := status s;
     transcript := transcript s; analysis := analysis s;
     analysisPending := analysisPending s; isMuted := isMuted s;
     mediaRef := mediaRef s; synth := synth s; live := live s;
     made := made s |}.

Definition setMessages (v : list message) (s : state) : state :=
  {| phase := phase s; ivTopic := ivTopic s; ivProf := ivProf s;
     ivNumQ := ivNumQ s; qNum := qNum s; currentQ := currentQ s;
     messages := v; history := history s; askedQs := askedQs s;
     isRecording := isRecording s; status := status s;
     transcript := transcript s; analysis := analysis s;
     analysisPending := analysisPending s; isMuted := isMuted s;
     mediaRef := mediaRef s; synth := synth s; live := live s;
     made := made s |}.

Definition setHistory (v : list exchange) (s : state) : state :=
  {| phase := phase s; ivTopic := ivTopic s; ivProf := ivProf s;
     ivNumQ := ivNumQ s; qNum := qNum s; currentQ := currentQ s;
     messages := messages s; history := v; askedQs := askedQs s;
     isRecording := isRecording s; status := status s;
     transcript := transcript s; analysis := analysis s;
     analysisPending := analysisPending s; isMuted := isMuted s;
     mediaRef := mediaRef s; synth := synth s; live := live s;
     made := made s |}.

Definition setAskedQs (v : list string) (s : state) : state :=
  {| phase := phase s; ivTopic := ivTopic s; ivProf := ivProf s;
     ivNumQ := ivNumQ s; qNum := qNum s; currentQ := currentQ s;
     messages := messages s; history := history s; askedQs := v;
     isRecording := isRecording s; status := status s;
     transcript := transcript s; analysis := analysis s;
     analysisPending := analysisPending s; isMuted := isMuted s;
     mediaRef := mediaRef s; synth := synth s; live := live s;
     made := made s |}.

Definition setIsRecording (v : bool) (s : state) : state :=
  {| phase := phase s; ivTopic := ivTopic s; ivProf := ivProf s;
     ivNumQ := ivNumQ s; qNum := qNum s; currentQ := currentQ s;
     messages := messages s; history := history s; askedQs := askedQs s;
     isRecording := v; status := status s; transcript := transcript s;
     analysis := analysis s; analysisPending := analysisPending s;
     isMuted := isMuted s; mediaRef := mediaRef s; synth := synth s;
     live := live s; made := made s |}.

Definition setStatus (v : status_t) (s : state) : state :=
  {| phase := phase s; ivTopic := ivTopic s; ivProf := ivProf s;
     ivNumQ := ivNumQ s; qNum := qNum s; currentQ := currentQ s;
     messages := messages s; history := history s; askedQs := askedQs s;
     isRecording := isRecording s; status := v; transcript := transcript s;
     analysis := analysis s; analysisPending := analysisPending s;
     isMuted := isMuted s; mediaRef := mediaRef s; synth := synth s;
     live := live s; made := made s |}.

Definition setTranscript (v : string) (s : state) : state :=
  {| phase := phase s; ivTopic := ivTopic s; ivProf := ivProf s;
     ivNumQ := ivNumQ s; qNum := qNum s; currentQ := currentQ s;
     messages := messages s; history := history s; askedQs := askedQs s;
     isRecording := isRecording s; status := status s; transcript := v;
     analysis := analysis s; analysisPending := analysisPending s;
     isMuted := isMuted s; mediaRef := mediaRef s; synth := synth s;
     live := live s; made := made s |}.

Definition setAnalysis (v : option analysis_t) (s : state) : state :=
  {| phase := phase s; ivTopic := ivTopic s; ivProf := ivProf s;
     ivNumQ := ivNumQ s; qNum := qNum s; currentQ := currentQ s;
     messages := messages s; history := history s; askedQs := askedQs s;
     isRecording := isRecording s; status := status s;
     transcript := transcript s; analysis := v;
     analysisPending := analysisPending s; isMuted := isMuted s;
     mediaRef := mediaRef s; synth := synth s; live := live s;
     made := made s |}.

Definition setAnalysisPending (v : bool) (s : state) : state :=
  {| phase := phase s; ivTopic := ivTopic s; ivProf := ivProf s;
     ivNumQ := ivNumQ s; qNum := qNum s; currentQ := currentQ s;
     messages := messages s; history := history s; askedQs := askedQs s;
     isRecording := isRecording s; status := status s;
     transcript := transcript s; analysis := analysis s;
     analysisPending := v; isMuted := isMuted s; mediaRef := mediaRef s;
     synth := synth s; live := live s; made := made s |}.

Definition setIsMuted (v : bool) (s : state) : state :=
  {| phase := phase s; ivTopic := ivTopic s; ivProf := ivProf s;
     ivNumQ := ivNumQ s; qNum := qNum s; currentQ := currentQ s;
     messages := messages s; history := history s; askedQs := askedQs s;
     isRecording := isRecording s; status := status s;
     transcript := transcript s; analysis := analysis s;
     analysisPending := analysisPending s; isMuted := v;
     mediaRef := mediaRef s; synth := synth s; live := live s;
     made := made s |}.

Definition setMediaRef (v : option nat) (s : state) : state :=
  {| phase := phase s; ivTopic := ivTopic s; ivProf := ivProf s;
     ivNumQ := ivNumQ s; qNum := qNum s; currentQ := currentQ s;
     messages := messages s; history := history s; askedQs := askedQs s;
     isRecording := isRecording s; status := status s;
     transcript := transcript s; analysis := analysis s;
     analysisPending := analysisPending s; isMuted := isMuted s;
     mediaRef := v; synth := synth s; live := live s; made := made s |}.

Definition setSynth (v : option (list string)) (s : state) : state :=
  {| phase := phase s; ivTopic := ivTopic s; ivProf := ivProf s;
     ivNumQ := ivNumQ s; qNum := qNum s; currentQ := currentQ s;
     messages := messages s; history := history s; askedQs := askedQs s;
     isRecording := isRecording s; status := status s;
     transcript := transcript s; analysis := analysis s;
     analysisPending := analysisPending s; isMuted := isMuted s;
     mediaRef := mediaRef s; synth := v; live := live s; made := made s |}.

Definition setLive (v : list nat) (s : state) : state :=
  {| phase := phase s; ivTopic := ivTopic s; ivProf := ivProf s;
     ivNumQ := ivNumQ s; qNum := qNum s; currentQ := currentQ s;
     messages := messages s; history := history s; askedQs := askedQs s;
     isRecording := isRecording s; status := status s;
     transcript := transcript s; analysis := analysis s;
     analysisPending := analysisPending s; isMuted := isMuted s;
     mediaRef := mediaRef s; synth := synth s; live := v; made := made s |}.

Definition setMade (v : nat) (s : state) : state :=
  {| phase := phase s; ivTopic := ivTopic s; ivProf := ivProf s;
     ivNumQ := ivNumQ s; qNum := qNum s; currentQ := currentQ s;
     messages := messages s; history := history s; askedQs := askedQs s;
     isRecording := isRecording s; status := status s;
     transcript := transcript s; analysis := analysis s;
     analysisPending := analysisPending s; isMuted := isMuted s;
     mediaRef := mediaRef s; synth := synth s; live := live s; made := v |}.

(** *** Handlers *)

Local Notation "s |> f" := (f s) (at level 45, left associativity, only parsing).

(** [speakText]: [c] is the render the caller closes over. *)
Definition speakText (c : state) (text : string) (s : state) : state :=
  match synth s with
  | Some _ => if isMuted c then s else s |> setSynth (Some [text])
  | None => s
  end.

Definition addMsg (c : state) (msg : message) (s : state) : state :=
  let s1 := s |> setMessages (messages s ++ [msg]) in
  match msg with
  | Ai text _ => if String.eqb text "" then s1 else speakText c text s1
  | User _ | Eval _ | Error _ => s1
  end.

(** The body of [/interview/start] and of [/interview/next]. *)
Record asked : Type := {
  a_error : option string;
  a_question : option iv_question
}.

(** What reading [question] of a missing [question] throws (the text is
    the engine's). *)
Definition no_question : string :=
  "Cannot read properties of undefined (reading 'question')".

Definition startInterview (r : Js.fetched asked) (c : state) : state :=
  if Js.blank (ivTopic c) then c
  else
    let s1 := c |> setStatus LoadingQ in
    let failed message := addMsg c (Error ("Failed to start: " +:+ message)) in
    let s2 :=
      match r with
      | Js.Rejected message => s1 |> failed message
      | Js.Response _ _ d =>
          if Js.truthy_str (a_error d)
          then s1 |> failed (Js.or_str (a_error d) "")
          else
            match a_question d with
            | None =>
                s1 |> setCurrentQ None |> setQNum 1 |> failed no_question
            | Some q =>
                s1 |> setCurrentQ (Some q) |> setQNum 1
                   |> setAskedQs [question q]
                   |> addMsg c (Ai (question q) q) |> setPhase Active
            end
      end in
    s2 |> setStatus Idle.

(** What [getUserMedia] answers. *)
Inductive mic : Type :=
| Granted
| Denied (message : string).

Definition startRecording (m : mic) (c : state) : state :=
  if bool_decide (status c = Idle) then
    match m with
    | Denied message =>
        c |> addMsg c
               (Error ("Mic error: " +:+ message
                         +:+ ". Type your answer instead."))
    | Granted =>
        c |> setLive (live c ++ [made c]) |> setMade (S (made c))
          |> setMediaRef (Some (made c))
          |> setIsRecording true |> setStatus Recording
    end
  else c.

(** The body of [/interview/transcribe]. *)
Record heard : Type := {
  t_error : option string;
  t_transcript : option string
}.

(** [mr.onstop] of recorder [id]: its stream is stopped, the audio is sent
    for transcription.  [c] is the render the closure belongs to; only
    error lines are added here, and those do not read it. *)
Definition onstop (id : nat) (c : state) (r : Js.fetched heard) (s : state)
    : state :=
  let s1 :=
    s |> setLive (List.filter (fun k => negb (Nat.eqb k id)) (live s))
      |> setStatus Transcribing in
  let failed message :=
    addMsg c (Error ("Transcription error: " +:+ message)) in
  let s2 :=
    match r with
    | Js.Rejected message => s1 |> failed message
    | Js.Response _ _ d =>
        if Js.truthy_str (t_error d) then s1 |> failed (Js.or_str (t_error d) "")
        else s1 |> setTranscript (Js.or_str (t_transcript d) "")
    end in
  s2 |> setStatus Idle.

(** [stopRecording]; stopping a recorder that is not capturing throws
    before any setter runs. *)
Definition stopRecording (r : Js.fetched heard) (c : state) : state :=
  match mediaRef c with
  | Some id =>
      if isRecording c then
        if bool_decide (id ∈ live c)
        then c |> setIsRecording false |> onstop id c r
        else c
      else c
  | None => c
  end.

(** What [submitAnswer] reads from outside. *)
Record submit_io : Type := {
  graded : Js.fetched iv_eval;
  analysed : Js.fetched analysis_t;
  archived : Js.fetched unit;
  upcoming : Js.fetched asked
}.

Definition unavailable : analysis_t :=
  {| overall_score := None; summary := Some "Analysis unavailable." |}.

Definition submitAnswer (io : submit_io) (c : state) : state :=
  let ans := Js.trim (transcript c) in
  match currentQ c with
  | None => c
  | Some q =>
      if String.eqb ans "" then c
      else
        let s1 :=
          c |> addMsg c (User ans) |> setTranscript ""
            |> setStatus Evaluating in
        let failed message := addMsg c (Error ("Error: " +:+ message)) in
        let s2 :=
          match graded io with
          | Js.Rejected message => s1 |> failed message
          | Js.Response _ _ ev =>
              let turn :=
                {| x_question := question q; user_answer := ans;
                   x_score := score ev; x_grade := grade ev;
                   x_concepts_missing := concepts_missing ev |} in
              let newHistory := history c ++ [turn] in
              let s3 := s1 |> setHistory newHistory |> addMsg c (Eval ev) in
              if (ivNumQ c <=? qNum c)%nat then
                let s4 := s3 |> setStatus Analyzing |> setAnalysisPending true in
                let s5 :=
                  match analysed io with
                  | Js.Rejected _ => s4 |> setAnalysis (Some unavailable)
                  | Js.Response _ _ a =>
                      match archived io with
                      | Js.Rejected _ =>
                          s4 |> setAnalysis (Some a)
                             |> setAnalysis (Some unavailable)
                      | Js.Response _ _ _ => s4 |> setAnalysis (Some a)
                      end
                  end in
                s5 |> setAnalysisPending false |> setPhase Done
              else
                let s4 := s3 |> setStatus LoadingQ in
                let nq := S (qNum c) in
                match upcoming io with
                | Js.Rejected message => s4 |> failed message
                | Js.Response _ _ nr =>
                    if Js.truthy_str (a_error nr)
                    then s4 |> failed (Js.or_str (a_error nr) "")
                    else
                      match a_question nr with
                      | None =>
                          s4 |> setCurrentQ None |> setQNum nq
                             |> failed no_question
                      | Some q' =>
                          s4 |> setCurrentQ (Some q') |> setQNum nq
                             |> setAskedQs (askedQs s4 ++ [question q'])
                             |> addMsg c (Ai (question q') q')
                      end
                end
          end in
        s2 |> setStatus Idle
  end.

(** The mute button: [setIsMuted(!isMuted)], and [cancel()] when the
    sound was on. *)
Definition toggleMute (c : state) : state :=
  let s1 := c |> setIsMuted (negb (isMuted c)) in
  if isMuted c then s1
  else
    match synth s1 with
    | Some _ => s1 |> setSynth (Some [])
    | None => s1
    end.

(** The back arrow of the active phase. *)
Definition back (c : state) : state :=
  c |> setPhase Setup |> setMessages [] |> setHistory []
    |> setTranscript "".

(** *** Controls *)

Definition busy (s : state) : bool :=
  bool_decide (status s ∈ [Transcribing; Evaluating; LoadingQ]).

Inductive event : Type :=
| TypeTopic (text : string)
| PickProficiency (value : string)
| SlideQuestions (n : nat)
| ClickStart (r : Js.fetched asked)
| PressMic (m : mic)
| ReleaseMic (r : Js.fetched heard)
| TypeTranscript (text : string)
| ClickSubmit (io : submit_io)
| ClickMute
| ClickBack
| UtteranceEnds.

Definition dispatch (ev : event) (s : state) : state :=
  let in_setup := bool_decide (phase s = Setup) in
  let in_active := bool_decide (phase s = Active) in
  match ev with
  | TypeTopic text => if in_setup then setIvTopic text s else s
  | PickProficiency value => if in_setup then setIvProf value s else s
  | SlideQuestions n =>
      if in_setup && (3 <=? n)%nat && (n <=? 10)%nat
      then setIvNumQ n s else s
  | ClickStart r =>
      if in_setup
         && negb (Js.blank (ivTopic s) || bool_decide (status s = LoadingQ))
      then startInterview r s else s
  | PressMic m =>
      if in_active && negb (busy s) then startRecording m s else s
  | ReleaseMic r =>
      if in_active && negb (busy s) then stopRecording r s else s
  | TypeTranscript text =>
      if in_active && negb (isRecording s || busy s)
      then setTranscript text s else s
  | ClickSubmit io =>
      if in_active
         && negb (Js.blank (transcript s)
                  || negb (bool_decide (status s = Idle)))
      then submitAnswer io s else s
  | ClickMute => if in_active then toggleMute s else s
  | ClickBack => if in_active then back s else s
  | UtteranceEnds =>
      match synth s with
      | Some (_ :: rest) => setSynth (Some rest) s
      | Some [] | None => s
      end
  end.

Definition run (evs : list event) (s : state) : state :=
  foldl (fun s ev => dispatch ev s) s evs.

(** The cells at mount: the topic and proficiency come from the quiz
    screen; [speech] tells whether the browser has speech synthesis. *)
Definition initial (globalTopic globalProficiency : string) (speech : bool)
    : state :=
  {| phase := Setup; ivTopic := globalTopic;
     ivProf := Js.or_str (Some globalProficiency) "intermediate";
     ivNumQ := 5; qNum := 0; currentQ := None; messages := [];
     history := []; askedQs := []; isRecording := false; status := Idle;
     transcript := ""; analysis := None; analysisPending := false;
     isMuted := false; mediaRef := None;
     synth := if speech then Some [] else None; live := []; made := 0 |}.

End Interview.

(** ** The specification's own wording *)

Module Spec.

(** The pass rule as the specification writes it:
    [isCorrect || score / max_score >= 0.6]. *)
Definition rule (h : Quiz.entry) : bool :=
  Quiz.isCorrect h
  || Js.ge (Js.div (Js.toNumber (Quiz.score h))
              (Js.toNumber (Quiz.max_score h)))
       (Js.Fin (6 # 10)).

(** An entry to which the ratio applies: it carries no score (a
    multiple-choice entry), or its maximum is a positive number. *)
Definition on_scale (h : Quiz.entry) : Prop :=
  Quiz.score h = None
  ∨ ∃ m, Quiz.max_score h = Some (Js.Fin m) ∧ (0 < m)%Q.

(** A character given by its UTF-8 bytes. *)
Definition utf8 (bytes : list nat) : string :=
  String.string_of_list_ascii (Ascii.ascii_of_nat <$> bytes).

(** The white space and the line terminators of ECMAScript: tab, line
    feed, vertical tab, form feed, carriage return, space, U+00A0, U+1680,
    U+2000 to U+200A, U+2028, U+2029, U+202F, U+205F, U+3000, U+FEFF. *)
Definition white_space : list string :=
  utf8 <$>
    [ [9]; [10]; [11]; [12]; [13]; [32]; [194; 160]; [225; 154; 128];
      [226; 128; 128]; [226; 128; 129]; [226; 128; 130]; [226; 128; 131];
      [226; 128; 132]; [226; 128; 133]; [226; 128; 134]; [226; 128; 135];
      [226; 128; 136]; [226; 128; 137]; [226; 128; 138];
      [226; 128; 168]; [226; 128; 169]; [226; 128; 175];
      [226; 129; 159]; [227; 128; 128]; [239; 187; 191] ].

(** Text that is empty or made of white space only. *)
Inductive white_only : string → Prop :=
| white_nil : white_only ""
| white_cons w rest :
    w ∈ white_space → white_only rest → white_only (w +:+ rest).

(** The keys [1..n] of a decision-answer map, each with text that is not
    empty and not white space only. *)
Definition filled (n : nat) (answers : gmap nat string) : Prop :=
  ∀ k, match answers !! k with
       | Some text => (1 ≤ k ≤ n)%nat ∧ ¬ white_only text
       | None => ¬ (1 ≤ k ≤ n)%nat
       end.

(** A full reset of the per-item cells, with [t] as the new reference
    point for the elapsed time. *)
Definition fresh (t : Z) (s : Quiz.state) : Prop :=
  Quiz.selected (Quiz.st_l1 s) = None
  ∧ Quiz.revealed (Quiz.st_l1 s) = false
  ∧ Quiz.openAnswer (Quiz.st_l2 s) = ""
  ∧ Quiz.showHint (Quiz.st_l2 s) = false
  ∧ Quiz.stepHint (Quiz.st_l3 s) = false
  ∧ Quiz.currentStep (Quiz.st_l3 s) = 1
  ∧ Quiz.stepAnswers (Quiz.st_l3 s) = ∅
  ∧ Quiz.evaluation (Quiz.st_l2 s) = None
  ∧ Quiz.scenarioEval (Quiz.st_l3 s) = None
  ∧ Quiz.startTimeRef (Quiz.st_core s) = Some t.

End Spec.

(** ** Concrete items, answers and runs *)

Module Sample.

Import Quiz.

Definition mcq (text : string) : item :=
  {| q_type := Mcq; q_question := Some text; q_scenario := None;
     q_correct := Some "A"; q_context := None; q_sample_answer := None;
     decision_points := None |}.

Definition essay (text : string) : item :=
  {| q_type := Open; q_question := Some text; q_scenario := None;
     q_correct := None; q_context := None; q_sample_answer := None;
     decision_points := None |}.

Definition outage : list decision_point :=
  [ {| situation := "The primary database is down."; hint := None |};
    {| situation := "The replica lags by an hour."; hint := None |};
    {| situation := "Customers ask for a status."; hint := None |} ].

Definition scenario (text : string) : item :=
  {| q_type := Scenario; q_question := None; q_scenario := Some text;
     q_correct := None; q_context := None; q_sample_answer := None;
     decision_points := Some outage |}.

(** The item service answering with [q]. *)
Definition payload (q : item) : next_data :=
  {| d_error := None; d_detail := None; d_question := Some q;
     new_level := 1; new_difficulty := "medium" |}.

Definition serves (q : item) : Js.fetched next_data :=
  Js.Response true 200 (payload q).

Definition wrapup : finish_io :=
  {| today := "2 Nov, 10:15 am";
     fb := Js.Response true 200 (Some "Revise closures.");
     saved := Js.Response true 200 tt |}.

Definition answering (r : Js.fetched next_data) : next_io :=
  {| clicked := 9000; next := r; arrived_at := 12000; finish := wrapup |}.

Definition graded (a b : Z) : l2_result :=
  {| ev_score := Some (Js.of_Z a); ev_max_score := Some (Js.of_Z b) |}.

(** Three history entries: a correct multiple-choice answer, an open
    response graded 6 of 10, one graded 5 of 10. *)
Definition entries : list entry :=
  [ {| question := Some "q1"; level := 1; difficulty := "medium";
       isCorrect := true; score := None; max_score := None;
       timeTaken := Some 9000%Z; e_selected := Some "A";
       e_correct := Some "A" |};
    {| question := Some "q2"; level := 2; difficulty := "medium";
       isCorrect := true; score := Some (Js.of_Z 6);
       max_score := Some (Js.of_Z 10); timeTaken := None;
       e_selected := None; e_correct := None |};
    {| question := Some "q3"; level := 2; difficulty := "medium";
       isCorrect := false; score := Some (Js.of_Z 5);
       max_score := Some (Js.of_Z 10); timeTaken := None;
       e_selected := None; e_correct := None |} ].

(** An entry whose grade came without a maximum. *)
Definition unscaled : entry :=
  {| question := Some "q4"; level := 2; difficulty := "medium";
     isCorrect := false; score := Some (Js.of_Z 7); max_score := None;
     timeTaken := None; e_selected := None; e_correct := None |}.

(** A three-item quiz on closures, started from an empty store, with the
    first item answered correctly and the second wrongly. *)
Definition two_answered : list event :=
  [ TypeTopic "closures"; SlideQuestions 3;
    ClickStart 1000 (Js.Response true 200 (Some (mcq "q1")));
    ClickOption "A"; ClickMCQNext (answering (serves (mcq "q2")));
    ClickOption "B" ].

(** The item service being unreachable. *)
Definition offline : Js.fetched next_data := Js.Rejected "Failed to fetch".

(** A later click on "Next". *)
Definition again (r : Js.fetched next_data) : next_io :=
  {| clicked := 30000; next := r; arrived_at := 33000; finish := wrapup |}.

(** The three-item quiz when the fetch of the third item fails once: the
    learner presses "Retry", then "Next" again, and finishes. *)
Definition retried_quiz : list event :=
  two_answered
  ++ [ ClickMCQNext (answering offline); ClickRetry;
       ClickMCQNext (again (serves (mcq "q3")));
       ClickOption "A"; ClickMCQNext (answering offline) ].

(** The three-item quiz with every fetch answered. *)
Definition clean_quiz : list event :=
  two_answered
  ++ [ ClickMCQNext (answering (serves (mcq "q3")));
       ClickOption "A"; ClickMCQNext (answering (serves (mcq "q4"))) ].

(** A five-item quiz with three items completed when the fetch of the
    fourth fails. *)
Definition three_completed : list event :=
  [ TypeTopic "closures"; SlideQuestions 5;
    ClickStart 1000 (Js.Response true 200 (Some (mcq "q1")));
    ClickOption "A"; ClickMCQNext (answering (serves (mcq "q2")));
    ClickOption "B"; ClickMCQNext (answering (serves (mcq "q3")));
    ClickOption "A"; ClickMCQNext (answering offline) ].

(** Pressing "Retry", then "Next" with the service back. *)
Definition retry : list event :=
  [ ClickRetry; ClickMCQNext (again (serves (mcq "q4"))) ].


(** The grading service's answer for a scenario. *)
Definition verdict : Js.fetched (option l3_result) :=
  Js.Response true 200
    (Some {| total_score := Some (Js.of_Z 24);
             total_max_score := Some (Js.of_Z 40) |}).

(** A quiz that opens with the outage scenario; the learner has answered
    the first two decision points and typed the third answer. *)
Definition at_last_step : list event :=
  [ TypeTopic "operations";
    ClickStart 1000 (Js.Response true 200 (Some (scenario "An outage.")));
    TypeStepAnswer "Fail over to the replica."; ClickStepNext verdict;
    TypeStepAnswer "Replay the write-ahead log."; ClickStepNext verdict;
    TypeStepAnswer "Post an update every 30 minutes." ].

(** A scenario that comes with an empty list of decision points, and a
    quiz that opens with it; the learner has answered two steps and typed
    a third answer. *)
Definition pointless (text : string) : item :=
  {| q_type := Scenario; q_question := None; q_scenario := Some text;
     q_correct := None; q_context := None; q_sample_answer := None;
     decision_points := Some [] |}.

Definition three_answers : list event :=
  [ TypeTopic "operations";
    ClickStart 1000 (Js.Response true 200 (Some (pointless "An outage.")));
    TypeStepAnswer "Fail over to the replica."; ClickStepNext verdict;
    TypeStepAnswer "Replay the write-ahead log."; ClickStepNext verdict;
    TypeStepAnswer "Post an update every 30 minutes." ].

(** The interviewer's first question, and the interview service answering
    with it. *)
Definition opening : Interview.iv_question :=
  {| Interview.question := "What is a closure?";
     Interview.expected_concepts := ["scope"; "function"] |}.

Definition asks : Js.fetched Interview.asked :=
  Js.Response true 200
    {| Interview.a_error := None; Interview.a_question := Some opening |}.

(** An interview on closures in a browser with speech synthesis: started,
    so the first question is being spoken. *)
Definition asked_first : list Interview.event :=
  [ Interview.ClickStart asks ].

(** The learner holds the microphone button, leaves with the back arrow
    while the recorder runs, starts again and holds the button again. *)
Definition back_while_recording : list Interview.event :=
  [ Interview.ClickStart asks; Interview.PressMic Interview.Granted;
    Interview.ClickBack;
    Interview.ClickStart asks; Interview.PressMic Interview.Granted ].

(** The learner holds the button and, before any release reaches it,
    presses it again. *)
Definition two_takes : list Interview.event :=
  [ Interview.ClickStart asks; Interview.PressMic Interview.Granted;
    Interview.PressMic Interview.Granted ].

End Sample.

(** ** Invariants of the quiz *)

Module Inv.

Import Quiz.

(** One score percentage per history entry. *)
Definition paired (s : state) : Prop :=
  length (recentScores (st_core s)) = length (history (st_core s)).

(** The counter stays within the configured number of items, and is never
    ahead of the history by more than the current item. *)
Definition in_range (s : state) : Prop :=
  (3 ≤ numQuestions s ≤ 50)%nat
  ∧ (screen s = AdaptiveQuiz →
       (1 ≤ qIndex (st_core s) ≤ numQuestions s)%nat
       ∧ (qIndex (st_core s) ≤ length (history (st_core s)) + 1)%nat).

(** A session as [finishQuiz] writes it. *)
Definition well_sealed (x : session) : Prop :=
  s_score x = length (List.filter passed (s_history x))
  ∧ s_feedback x = ""
  ∧ s_level x = "adaptive"
  ∧ (3 ≤ total x ≤ 50)%nat.

(** Every stored session was there at mount or is as [finishQuiz] writes
    it. *)
Definition store_sound (stored0 : Store.cell session) (s : state) : Prop :=
  ∀ x, x ∈ Store.loadSessions (storage s) →
       x ∈ Store.loadSessions stored0 ∨ well_sealed x.

(** A request to one of the two grading routes. *)
Definition is_grading (e : effect) : bool :=
  match e with
  | L2Evaluate _ _ _ _ _ | L3Evaluate _ _ _ _ => true
  | AdaptiveStart _ _ | AdaptiveNext _ | Feedback _ _
  | SessionSave _ _ _ _ => false
  end.

(** The grading results at hand, if any, come with a positive maximum. *)
Definition graded_on_scale (c : state) : Prop :=
  (∀ ev, evaluation (st_l2 c) = Some ev →
         ∃ m, ev_max_score ev = Some (Js.Fin m) ∧ (0 < m)%Q)
  ∧ (∀ ev, scenarioEval (st_l3 c) = Some ev →
           ∃ m, total_max_score ev = Some (Js.Fin m) ∧ (0 < m)%Q).

(** Saving several sessions, the first of the list first. *)
Definition saveAll (ss : list session) (c : Store.cell session)
    : Store.cell session :=
  foldl (fun c x => Store.saveSession x c) c ss.

(** The event, where it carries a grading result, carries one with a
    positive maximum. *)
Definition graded_well (ev : event) : Prop :=
  match ev with
  | ClickSubmitOpen (Js.Response _ _ (Some r)) =>
      ∃ m, ev_max_score r = Some (Js.Fin m) ∧ (0 < m)%Q
  | ClickStepNext (Js.Response _ _ (Some r)) =>
      ∃ m, total_max_score r = Some (Js.Fin m) ∧ (0 < m)%Q
  | _ => True
  end.

(** [isLast], the test under the label of the "next" buttons:
    [qIndex >= numQuestions]. *)
Definition isLast (s : state) : bool :=
  (numQuestions s <=? qIndex (st_core s))%nat.



(** The flag of the entry decides the rule of the tally. *)
Definition flagged (e : entry) : Prop := passed e = isCorrect e.

Definition tally_inv (s : state) : Prop :=
  graded_on_scale s ∧ Forall flagged (history (st_core s)).

(** A request for the next item. *)
Definition is_next (e : effect) : bool :=
  match e with
  | AdaptiveNext _ => true
  | AdaptiveStart _ _ | L2Evaluate _ _ _ _ _ | L3Evaluate _ _ _ _
  | Feedback _ _ | SessionSave _ _ _ _ => false
  end.

End Inv.

(** ** More sample runs *)

Module Scene.

Import Quiz.

(** A quiz that opens with an open question; the learner has typed an
    answer. *)
Definition essay_answered : list event :=
  [ TypeTopic "closures";
    ClickStart 1000
      (Js.Response true 200 (Some (Sample.essay "Explain closures.")));
    TypeOpenAnswer "A function together with its scope." ].

(** The grading service being unreachable when the answer is submitted. *)
Definition grading_fails : list event :=
  essay_answered ++ [ ClickSubmitOpen (Js.Rejected "Failed to fetch") ].

(** What the learner may try afterwards. *)
Definition tries : list event :=
  [ ClickSubmitOpen (Js.Response true 200 (Some (Sample.graded 7 10)));
    TypeOpenAnswer "Another answer.";
    ClickSubmitOpen (Js.Response true 200 (Some (Sample.graded 7 10)));
    ClickNav Start; TypeTopic "scope";
    ClickStart 5000
      (Js.Response true 200 (Some (Sample.essay "Explain scope.")));
    TypeOpenAnswer "Where a name is visible.";
    ClickSubmitOpen (Js.Response true 200 (Some (Sample.graded 7 10))) ].

(** The answer graded 7 of 10, and the next item fetched. *)
Definition essay_graded : list event :=
  essay_answered
  ++ [ ClickSubmitOpen (Js.Response true 200 (Some (Sample.graded 7 10)));
       ClickOpenNext (Sample.answering (Sample.serves (Sample.mcq "q2"))) ].

(** The feedback arrives, the archive of the session does not. *)
Definition unarchived : finish_io :=
  {| today := "2 Nov, 10:15 am";
     fb := Js.Response true 200 (Some "Revise closures.");
     saved := Js.Rejected "Failed to fetch" |}.

(** A grade for a spoken answer. *)
Definition mark : Interview.iv_eval :=
  {| Interview.score := Some (Js.of_Z 7);
     Interview.grade := Some "Good";
     Interview.concepts_missing := ["scope"] |}.

Definition follow_up : Interview.iv_question :=
  {| Interview.question := "What is hoisting?";
     Interview.expected_concepts := ["declaration"] |}.

(** Every service answers. *)
Definition all_well : Interview.submit_io :=
  {| Interview.graded := Js.Response true 200 mark;
     Interview.analysed :=
       Js.Response true 200
         {| Interview.overall_score := Some (Js.of_Z 70);
            Interview.summary := Some "Solid." |};
     Interview.archived := Js.Response true 200 tt;
     Interview.upcoming :=
       Js.Response true 200
         {| Interview.a_error := None;
            Interview.a_question := Some follow_up |} |}.

(** The grading service is unreachable. *)
Definition ungraded : Interview.submit_io :=
  {| Interview.graded := Js.Rejected "Failed to fetch";
     Interview.analysed := Interview.analysed all_well;
     Interview.archived := Js.Response true 200 tt;
     Interview.upcoming := Interview.upcoming all_well |}.

(** An interview of three questions, each answered by typing. *)
Definition interview : list Interview.event :=
  [ Interview.SlideQuestions 3; Interview.ClickStart Sample.asks;
    Interview.TypeTranscript "A function with its scope.";
    Interview.ClickSubmit all_well;
    Interview.TypeTranscript "Declarations are moved up.";
    Interview.ClickSubmit all_well;
    Interview.TypeTranscript "Again, declarations are moved up.";
    Interview.ClickSubmit all_well ].

(** The first question asked and an answer typed. *)
Definition drafted : list Interview.event :=
  [ Interview.ClickStart Sample.asks;
    Interview.TypeTranscript "  A function with its scope. " ].

(** Stored sessions: 2 of 3, 5 of 5 and 1 of 4. *)
Definition stored_session (good all : nat) : session :=
  {| s_topic := "closures"; s_proficiency := "intermediate";
     s_level := "adaptive"; s_score := good; total := all;
     date := "2 Nov, 10:15 am"; s_history := []; s_feedback := "" |}.

Definition three_sessions : list session :=
  [ stored_session 2 3; stored_session 5 5; stored_session 1 4 ].

End Scene.

(** ** Invariants of the interview *)

Module IvInv.

Import Interview.

(** The question service answers a submitted answer with an error or with
    a question.  (With neither, the updater handed to [setAskedQs] reads
    [question] of [undefined] when React runs it, outside the handler's
    [try].) *)
Definition served (ev : event) : Prop :=
  match ev with
  | ClickSubmit io =>
      match upcoming io with
      | Js.Response _ _ nr =>
          Js.truthy_str (a_error nr) = true ∨ is_Some (a_question nr)
      | Js.Rejected _ => True
      end
  | _ => True
  end.

(** No call is pending. *)
Definition quiet (s : state) : Prop :=
  status s = Idle ∨ status s = Recording.

(** The results phase has something to show. *)
Definition done_inv (s : state) : Prop :=
  phase s = Done → analysisPending s = false ∧ is_Some (analysis s).

(** The speech queue holds at most one utterance. *)
Definition queue_inv (s : state) : Prop :=
  match synth s with
  | Some q => (length q ≤ 1)%nat
  | None => True
  end.

End IvInv.

(** ** The analytics pages *)

Module JsMath.

Import Js.

(** [a - b] *)
Definition sub (a b : num) : num :=
  match a, b with
  | NaN, _ | _, NaN => NaN
  | Fin x, Fin y => Fin (x - y)
  | PInf, PInf | NInf, NInf => NaN
  | PInf, _ | _, NInf => PInf
  | NInf, _ | _, PInf => NInf
  end.

(** [a > b] *)
Definition gt (a b : num) : bool :=
  match a, b with
  | NaN, _ | _, NaN => false
  | Fin x, Fin y => Qlt_bool y x
  | PInf, PInf | NInf, _ | Fin _, PInf => false
  | PInf, _ | Fin _, NInf => true
  end.

(** [Math.max(a, b)] *)
Definition max (a b : num) : num :=
  match a, b with
  | NaN, _ | _, NaN => NaN
  | PInf, _ | _, PInf => PInf
  | NInf, x | x, NInf => x
  | Fin x, Fin y => if Qle_bool x y then Fin y else Fin x
  end.

(** [Math.max(...l)]; [-Infinity] for no argument. *)
Definition max_of (l : list num) : num := foldr max NInf l.

End JsMath.

Module Views.

Import Quiz.

(** [s.score / s.total] *)
Definition ratio (x : session) : Js.num :=
  Js.div (Js.of_Z (Z.of_nat (s_score x))) (Js.of_Z (Z.of_nat (total x))).

(** [Math.round(s.score / s.total * 100)] *)
Definition pct (x : session) : Js.num :=
  Js.round (Js.mul (ratio x) (Js.of_Z 100)).

(** [AnalyticsDashboard]: the "Avg Score" and "Best" cards. *)
Definition avgScore (sessions : list session) : Js.num :=
  match sessions with
  | [] => Js.of_Z 0
  | _ :: _ =>
      Js.round
        (Js.mul
           (Js.div
              (foldl (fun acc x => Js.add acc (ratio x)) (Js.of_Z 0) sessions)
              (Js.of_Z (Z.of_nat (length sessions))))
           (Js.of_Z 100))
  end.

Definition bestScore (sessions : list session) : Js.num :=
  match sessions with
  | [] => Js.of_Z 0
  | _ :: _ => JsMath.max_of (pct <$> sessions)
  end.

(** [TestDetail]: the two counts beside the donut. *)
Definition good (x : session) : nat :=
  length (List.filter passed (s_history x)).

Definition needsWork (x : session) : nat :=
  length (List.filter (fun h => negb (passed h)) (s_history x)).

(** [TrendChart]: the class of the insight line, [""] when none is
    shown.  [data] is the sessions oldest first. *)
Definition trendClass (sessions : list session) : string :=
  let data := pct <$> reverse sessions in
  if (2 <=? length data)%nat then
    match last data, head data with
    | Some newest, Some oldest =>
        let d := JsMath.sub newest oldest in
        if JsMath.gt d (Js.of_Z 0) then "trend-up"
        else if JsMath.gt (Js.of_Z 0) d then "trend-down"
        else "trend-flat"
    | _, _ => ""
    end
  else "".

(** A session whose score does not exceed its positive total. *)
Definition within_total (x : session) : Prop :=
  (0 < total x)%nat ∧ (s_score x ≤ total x)%nat.

(** The ratio as a rational. *)
Definition ratioQ (x : session) : Q :=
  inject_Z (Z.of_nat (s_score x)) / inject_Z (Z.of_nat (total x)).

Definition sumQ (l : list session) : Q :=
  foldr (fun x acc => ratioQ x + acc)%Q 0%Q l.

(** The rounded percentage as an integer. *)
Definition pctZ (x : session) : Z :=
  Qfloor (ratioQ x * inject_Z 100 + (1 # 2)).

End Views.

(** * Properties *)

(** ** The session store *)

Section SessionStore.

Context {session : Type}.
Implicit Types (s : session) (c : Store.cell session).

Lemma saveSession_unfold s c :
  Store.loadSessions (Store.saveSession s c)
  = s :: take 49 (Store.loadSessions c).
Proof. reflexivity. Qed.

(** C9. The store is most-recent-first and capped at 50: after
    [saveSession s] the session [s] is at index 0, the sessions behind it
    are the previously stored ones in their previous order with only the
    oldest (the last) dropped, and the stored list has length
    [min (previous length + 1) 50]. *)
Theorem saveSession_newest_first_capped s c :
  let old := Store.loadSessions c in
  let kept := Store.loadSessions (Store.saveSession s c) in
  kept !! 0 = Some s
  ∧ drop 1 kept `prefix_of` old
  ∧ length kept = Nat.min (length old + 1) 50.
Proof.
  cbn zeta. rewrite saveSession_unfold. split_and!.
  - reflexivity.
  - cbn [drop]. rewrite drop_0. apply prefix_take.
  - cbn [length]. rewrite length_take. lia.
Qed.

End SessionStore.

(** ** The pass rule *)

Section PassRule.

Import Quiz.

Lemma Qeq_bool_false_of_lt (m : Q) : (0 < m)%Q → Qeq_bool m 0 = false.
Proof.
  intros H. destruct (Qeq_bool m 0) eqn:E; [|done].
  apply Qeq_bool_iff in E. rewrite E in H. by apply Qlt_irrefl in H.
Qed.

(** Comparing a score with six tenths of a positive maximum is comparing
    the ratio with six tenths. *)
Lemma ge_scaled (x : Js.num) (m : Q) :
  (0 < m)%Q →
  Js.ge x (Js.mul (Js.Fin m) (Js.Fin (6 # 10)))
  = Js.ge (Js.div x (Js.Fin m)) (Js.Fin (6 # 10)).
Proof.
  intros Hm. destruct x as [q| | |]; cbn [Js.mul Js.div Js.ge].
  - rewrite (Qeq_bool_false_of_lt m Hm). cbn [Js.ge].
    apply eq_true_iff_eq. rewrite !Qle_bool_iff. split; intros H.
    + apply Qle_shift_div_l; [exact Hm|]. rewrite Qmult_comm. exact H.
    + assert (¬ m == 0)%Q as Hne.
      { intros E. rewrite E in Hm. by apply Qlt_irrefl in Hm. }
      rewrite <- (Qmult_div_r q m Hne).
      apply Qmult_le_l; [exact Hm | exact H].
  - assert (Qle_bool 0 m = true) as ->; [|done].
    apply Qle_bool_iff. by apply Qlt_le_weak.
  - assert (Qle_bool 0 m = true) as ->; [|done].
    apply Qle_bool_iff. by apply Qlt_le_weak.
  - done.
Qed.

Lemma passed_is_rule (h : entry) : Spec.on_scale h → passed h = Spec.rule h.
Proof.
  intros [Hs | (m & Hm & Hpos)]; unfold passed, Spec.rule.
  - rewrite Hs. cbn [Js.toNumber Js.ge Js.div]. done.
  - rewrite Hm. unfold Js.or_num. cbn [Js.truthy Js.toNumber].
    rewrite (Qeq_bool_false_of_lt m Hpos). cbn [negb].
    f_equal. by apply ge_scaled.
Qed.

Lemma filter_passed_is_rule (hist : list entry) :
  Forall Spec.on_scale hist →
  List.filter passed hist = List.filter Spec.rule hist.
Proof.
  induction 1 as [|h hist Hh _ IH]; [done|].
  cbn [List.filter]. rewrite (passed_is_rule h Hh), IH. done.
Qed.

(** Whatever the network answers, a "next" handler leaves the history one
    entry longer. *)
Lemma finishQuiz_history c hist io s :
  history (st_core (finishQuiz c hist io s).1) = history (st_core s).
Proof.
  unfold finishQuiz. destruct (fb io); [done|]. by destruct (saved io).
Qed.

Lemma fetchNextQuestion_history c hist scores pct t arrived r s :
  history (st_core (fetchNextQuestion c hist scores pct t arrived r s).1)
  = history (st_core s).
Proof.
  unfold fetchNextQuestion. by destruct (next_outcome r) as [?|[? ?]].
Qed.

Lemma advance_history c e pct t io :
  history (st_core (advance c e pct t io).1) = history (st_core c) ++ [e].
Proof.
  unfold advance. case_match.
  - by rewrite finishQuiz_history.
  - by rewrite fetchNextQuestion_history.
Qed.

(** The session [finishQuiz] seals is the newest stored one. *)
Lemma finishQuiz_sealed c hist io s :
  Store.loadSessions (storage (finishQuiz c hist io s).1) !! 0
  = Some {| s_topic := topic c; s_proficiency := proficiency c;
            s_level := "adaptive";
            s_score := length (List.filter passed hist);
            total := numQuestions c; date := today io;
            s_history := hist; s_feedback := "" |}.
Proof.
  unfold finishQuiz. destruct (fb io); [done|]. by destruct (saved io).
Qed.

Lemma handleOpenNext_entry io c q ev :
  currentQ (st_core c) = Some q →
  evaluation (st_l2 c) = Some ev →
  ∃ e, history (st_core (handleOpenNext io c).1) = history (st_core c) ++ [e]
       ∧ score e = ev_score ev ∧ max_score e = ev_max_score ev
       ∧ isCorrect e
         = Js.ge (percent (ev_score ev) (ev_max_score ev)) (Js.of_Z 60).
Proof.
  intros Hq Hev. unfold handleOpenNext. rewrite Hq, Hev.
  eexists. split; [apply advance_history|]. done.
Qed.

(** C1. Unified pass rule.  For a history whose entries are on a scale
    (each entry either carries no score, as a multiple-choice entry, or has
    a positive maximum): every entry counts as a success exactly when its
    correctness flag is true or [score / max_score >= 0.6]; the tally the
    results screen displays, and the score of the session that
    [finishQuiz] seals, are the number of entries that satisfy this rule;
    and an open response graded 6 out of 10 is recorded as a success, one
    graded 5 out of 10 as a failure. *)
Theorem unified_pass_rule (hist : list entry) :
  Forall Spec.on_scale hist →
  Forall (λ h, passed h = Spec.rule h) hist
  ∧ (∀ s, history (st_core s) = hist →
          resultScore s = length (List.filter Spec.rule hist))
  ∧ (∀ c io s, ∃ sealed,
        Store.loadSessions (storage (finishQuiz c hist io s).1) !! 0
        = Some sealed
        ∧ s_history sealed = hist
        ∧ s_score sealed = length (List.filter Spec.rule hist))
  ∧ (∀ io c q, currentQ (st_core c) = Some q →
        hist = history (st_core c) →
        (evaluation (st_l2 c) = Some (Sample.graded 6 10) →
         ∃ e, history (st_core (handleOpenNext io c).1) = hist ++ [e]
              ∧ Spec.on_scale e ∧ passed e = true)
        ∧ (evaluation (st_l2 c) = Some (Sample.graded 5 10) →
           ∃ e, history (st_core (handleOpenNext io c).1) = hist ++ [e]
                ∧ Spec.on_scale e ∧ passed e = false)).
Proof.
  intros Hscale. split_and!.
  - eapply Forall_impl; [exact Hscale|]. apply passed_is_rule.
  - intros s Hs. unfold resultScore. rewrite Hs.
    by rewrite filter_passed_is_rule.
  - intros c io s. eexists. split; [apply finishQuiz_sealed|].
    split; [done|]. cbn [s_score]. by rewrite filter_passed_is_rule.
  - intros io c q Hq ->. split; intros Hev.
    + destruct (handleOpenNext_entry io c q _ Hq Hev)
        as (e & Hh & Hsc & Hmx & Hflag).
      exists e. split; [done|]. split.
      * right. exists (inject_Z 10). by rewrite Hmx.
      * unfold passed. rewrite Hflag. done.
    + destruct (handleOpenNext_entry io c q _ Hq Hev)
        as (e & Hh & Hsc & Hmx & Hflag).
      exists e. split; [done|]. split.
      * right. exists (inject_Z 10). by rewrite Hmx.
      * unfold passed. rewrite Hflag, Hsc, Hmx. done.
Qed.

(** C10. Default scale.  For an entry whose [max_score] is absent or zero
    the rule takes 10 as the maximum: the entry counts as a success exactly
    when its flag is true or its score is at least 6. *)
Theorem default_scale_is_ten (h : entry) :
  max_score h = None ∨ (∃ z, max_score h = Some (Js.Fin z) ∧ (z == 0)%Q) →
  passed h = isCorrect h || Js.ge (Js.toNumber (score h)) (Js.of_Z 6).
Proof.
  intros Hmax. unfold passed.
  assert (Js.or_num (max_score h) (Js.of_Z 10) = Js.of_Z 10) as ->.
  { destruct Hmax as [-> | (z & -> & Hz)]; [done|].
    unfold Js.or_num. cbn [Js.truthy].
    apply Qeq_bool_iff in Hz. by rewrite Hz. }
  f_equal. destruct (Js.toNumber (score h)) as [x| | |]; try done.
  cbn [Js.of_Z Js.mul Js.ge]. apply eq_true_iff_eq.
  rewrite !Qle_bool_iff.
  assert (inject_Z 10 * (6 # 10) == inject_Z 6)%Q as -> by reflexivity.
  done.
Qed.

Lemma sample_entries_on_scale : Forall Spec.on_scale Sample.entries.
Proof.
  unfold Sample.entries.
  apply Forall_cons; split; [by left|].
  apply Forall_cons; split; [right; exists (inject_Z 10); by split|].
  apply Forall_cons; split; [right; exists (inject_Z 10); by split|].
  apply Forall_nil_2.
Defined.

Lemma unified_pass_rule_witness :
  Forall Spec.on_scale Sample.entries
  ∧ Forall (λ h, passed h = Spec.rule h) Sample.entries
  ∧ List.filter Spec.rule Sample.entries = take 2 Sample.entries.
Proof.
  split; [exact sample_entries_on_scale|].
  split; [|reflexivity].
  exact (proj1 (unified_pass_rule Sample.entries sample_entries_on_scale)).
Defined.

Lemma default_scale_is_ten_witness :
  max_score Sample.unscaled = None ∧ passed Sample.unscaled = true.
Proof.
  split; [reflexivity|].
  exact (default_scale_is_ten Sample.unscaled (or_introl eq_refl)).
Defined.

End PassRule.

(** ** Entering a new item *)

Section Presenting.

Import Quiz.

Lemma next_outcome_accepts status data q :
  Js.truthy_str (d_error data) = false →
  d_question data = Some q →
  next_outcome (Js.Response true status data) = inr (q, data).
Proof. intros He Hq. unfold next_outcome. by rewrite He, Hq. Qed.

(** C3. A successful fetch of the next item resets the whole per-item
    state in the one transition that presents the item: selection and
    draft text empty, both hints hidden, step pointer 1, decision-answer
    map empty, no grading result left, and the time of arrival as the new
    reference point for the elapsed time. *)
Theorem presenting_resets_substate
    c hist scores pct t arrived r s status data q :
  r = Js.Response true status data →
  Js.truthy_str (d_error data) = false →
  d_question data = Some q →
  let s' := (fetchNextQuestion c hist scores pct t arrived r s).1 in
  currentQ (st_core s') = Some q
  ∧ loading s' = false
  ∧ quizError (st_results s') = None
  ∧ Spec.fresh arrived s'.
Proof.
  intros -> He Hq. cbn zeta. unfold fetchNextQuestion.
  rewrite (next_outcome_accepts status data q He Hq).
  unfold Spec.fresh. by split_and!.
Qed.

(** The first item is presented the same way. *)
Lemma startQuiz_presents_fresh arrived ok status q c :
  Js.blank (topic c) = false →
  let s' := (startQuiz arrived (Js.Response ok status (Some q)) c).1 in
  screen s' = AdaptiveQuiz
  ∧ currentQ (st_core s') = Some q
  ∧ qIndex (st_core s') = 1
  ∧ history (st_core s') = []
  ∧ Spec.fresh arrived s'.
Proof.
  intros Ht. cbn zeta. unfold startQuiz. rewrite Ht.
  unfold Spec.fresh. by split_and!.
Qed.

Lemma startQuiz_presents_fresh_witness :
  let s := (run Sample.retried_quiz (initial Store.Missing)).1 in
  let s' :=
    (startQuiz 50000 (Js.Response true 200 (Some (Sample.mcq "q1"))) s).1 in
  length (history (st_core s)) = 4
  ∧ history (st_core s') = []
  ∧ Spec.fresh 50000 s'.
Proof.
  cbn zeta. split; [reflexivity|].
  pose proof
    (startQuiz_presents_fresh 50000 true 200 (Sample.mcq "q1")
       (run Sample.retried_quiz (initial Store.Missing)).1 eq_refl) as H.
  cbn zeta in H. destruct H as (_ & _ & _ & Hh & Hf).
  exact (conj Hh Hf).
Defined.

Lemma presenting_resets_substate_witness :
  let s := (run Sample.two_answered (initial Store.Missing)).1 in
  let s' :=
    (fetchNextQuestion s [] [] (Js.of_Z 0) 0 12000
       (Sample.serves (Sample.scenario "An outage.")) s).1 in
  selected (st_l1 s) = Some "B"
  ∧ currentQ (st_core s') = Some (Sample.scenario "An outage.")
  ∧ Spec.fresh 12000 s'.
Proof.
  cbn zeta. split; [reflexivity|].
  pose proof
    (presenting_resets_substate
       (run Sample.two_answered (initial Store.Missing)).1
       [] [] (Js.of_Z 0) 0%Z 12000%Z
       (Sample.serves (Sample.scenario "An outage."))
       (run Sample.two_answered (initial Store.Missing)).1
       200 (Sample.payload (Sample.scenario "An outage."))
       (Sample.scenario "An outage.")
       eq_refl eq_refl eq_refl) as H.
  cbn zeta in H. exact (conj (proj1 H) (proj2 (proj2 (proj2 H)))).
Defined.

End Presenting.

(** ** Runs of the quiz *)

Section QuizRuns.

Import Quiz.

Lemma finishQuiz_recentScores c hist io s :
  recentScores (st_core (finishQuiz c hist io s).1) = recentScores (st_core s).
Proof.
  unfold finishQuiz. destruct (fb io); [done|]. by destruct (saved io).
Qed.

Lemma fetchNextQuestion_recentScores c hist scores pct t arrived r s :
  recentScores (st_core (fetchNextQuestion c hist scores pct t arrived r s).1)
  = recentScores (st_core s).
Proof.
  unfold fetchNextQuestion. by destruct (next_outcome r) as [?|[? ?]].
Qed.

Lemma advance_recentScores c e pct t io :
  recentScores (st_core (advance c e pct t io).1)
  = recentScores (st_core c) ++ [pct].
Proof.
  unfold advance. case_match.
  - by rewrite finishQuiz_recentScores.
  - by rewrite fetchNextQuestion_recentScores.
Qed.



Lemma handleMCQNext_next : handleMCQNext ∈ next_handlers.
Proof. apply list_elem_of_here. Qed.

Lemma handleOpenNext_next : handleOpenNext ∈ next_handlers.
Proof. apply list_elem_of_further, list_elem_of_here. Qed.

Lemma handleScenarioNext_next : handleScenarioNext ∈ next_handlers.
Proof. do 2 apply list_elem_of_further. apply list_elem_of_here. Qed.

Lemma next_handler_advances h io c :
  h ∈ next_handlers →
  h io c = (c, []) ∨ ∃ e pct t, h io c = advance c e pct t io.
Proof.
  unfold next_handlers. rewrite !elem_of_cons, elem_of_nil.
  intros [->|[->|[->|[]]]].
  - unfold handleMCQNext. destruct (currentQ (st_core c)); eauto.
  - unfold handleOpenNext.
    destruct (evaluation (st_l2 c)), (currentQ (st_core c)); eauto.
  - unfold handleScenarioNext.
    destruct (scenarioEval (st_l3 c)), (currentQ (st_core c)); eauto.
Qed.







(** C5. After three completed items the fetch of the fourth fails: the
    history keeps its three entries and the error box with "Retry" is
    shown.  Pressing "Retry" and then "Next" fetches the fourth item, and
    appends the third entry a second time. *)
Theorem retry_appends_entry_again :
  let failed := (run Sample.three_completed (initial Store.Missing)).1 in
  let retried :=
    (run (Sample.three_completed ++ Sample.retry) (initial Store.Missing)).1 in
  question <$> history (st_core failed) = [Some "q1"; Some "q2"; Some "q3"]
  ∧ showing ErrorBox failed = true
  ∧ currentQ (st_core retried) = Some (Sample.mcq "q4")
  ∧ question <$> history (st_core retried)
    = [Some "q1"; Some "q2"; Some "q3"; Some "q3"].
Proof. vm_compute. by split_and!. Qed.

(** C2. In the three-item quiz whose third fetch failed once and was
    retried, the sealed session records a total of 3 and a history of
    4 entries. *)
Theorem sealed_history_longer_than_total :
  let s := (run Sample.retried_quiz (initial Store.Missing)).1 in
  screen s = Results
  ∧ numQuestions s = 3
  ∧ ∃ sealed, Store.loadSessions (storage s) = [sealed]
              ∧ total sealed = 3
              ∧ length (s_history sealed) = 4
              ∧ question <$> s_history sealed
                = [Some "q1"; Some "q2"; Some "q2"; Some "q3"].
Proof.
  vm_compute. split_and!; [done..|]. eexists. by split_and!.
Qed.

Lemma showing_on_quiz v s : showing v s = true → screen s = AdaptiveQuiz.
Proof.
  unfold showing. intros H. apply andb_true_iff in H as [H _].
  by apply bool_decide_eq_true in H.
Qed.

Lemma finishQuiz_seals c hist io s :
  let s' := (finishQuiz c hist io s).1 in
  screen s' = Results
  ∧ numQuestions s' = numQuestions s
  ∧ ∃ sealed, Store.loadSessions (storage s')
              = take 50 (sealed :: Store.loadSessions (storage s))
              ∧ s_history sealed = hist ∧ total sealed = numQuestions c.
Proof.
  cbn zeta. unfold finishQuiz.
  destruct (fb io); [|destruct (saved io)]; cbn;
    (split_and!; [done..|eexists; by split_and!]).
Qed.

Lemma fetchNextQuestion_accepted c hist scores pct t arrived r s q data :
  next_outcome r = inr (q, data) →
  let s' := (fetchNextQuestion c hist scores pct t arrived r s).1 in
  screen s' = screen s
  ∧ numQuestions s' = numQuestions s
  ∧ storage s' = storage s
  ∧ qIndex (st_core s') = S (qIndex (st_core s))
  ∧ history (st_core s') = history (st_core s).
Proof.
  intros Hr. cbn zeta. unfold fetchNextQuestion. rewrite Hr. by split_and!.
Qed.

Lemma advance_counted stored0 c e pct t io :
  (∃ q data, next_outcome (next io) = inr (q, data)) →
  screen c = AdaptiveQuiz →
  counted stored0 c → counted stored0 (advance c e pct t io).1.
Proof.
  intros (q & data & Hok) Hscreen (Hn & Hquiz & Hstore).
  destruct (Hquiz Hscreen) as [Hidx Hlen].
  unfold advance. case_match eqn:Hlast.
  - apply Nat.leb_le in Hlast.
    destruct (finishQuiz_seals c (history (st_core c) ++ [e]) (finish io)
                (setRecentScores (recentScores (st_core c) ++ [pct])
                   (setHistory (history (st_core c) ++ [e]) c)))
      as (Hs & Hnum & sealed & Hload & Hhist & Htotal).
    split; [|split].
    + rewrite Hnum. exact Hn.
    + rewrite Hs. discriminate.
    + intros x Hx. rewrite Hload in Hx.
      apply (subseteq_take 50) in Hx.
      apply elem_of_cons in Hx as [->|Hx]; [right|by apply Hstore].
      rewrite Hhist, Htotal, length_app. cbn. lia.
  - apply Nat.leb_gt in Hlast.
    destruct (fetchNextQuestion_accepted c (history (st_core c) ++ [e])
                (recentScores (st_core c) ++ [pct]) pct t (arrived_at io)
                (next io)
                (setRecentScores (recentScores (st_core c) ++ [pct])
                   (setHistory (history (st_core c) ++ [e]) c))
                q data Hok)
      as (Hs & Hnum & Hsto & Hq & Hh).
    split; [|split].
    + rewrite Hnum. exact Hn.
    + intros _. rewrite Hq, Hh, Hnum. cbn. rewrite length_app. cbn. lia.
    + rewrite Hsto. exact Hstore.
Qed.

Lemma next_handler_counted stored0 h io c :
  h ∈ next_handlers →
  (∃ q data, next_outcome (next io) = inr (q, data)) →
  screen c = AdaptiveQuiz →
  counted stored0 c → counted stored0 (h io c).1.
Proof.
  intros Hh Hok Hscreen Hinv.
  destruct (next_handler_advances h io c Hh) as [->|(e & pct & t & ->)];
    [done|by apply advance_counted].
Qed.

Lemma startQuiz_counted stored0 arrived r c :
  screen c = Start → counted stored0 c →
  counted stored0 (startQuiz arrived r c).1.
Proof.
  intros Hscreen (Hn & Hquiz & Hstore). unfold startQuiz.
  case_match; [done|].
  destruct r as [?|? ? [q|]]; (split; [exact Hn|split; [|exact Hstore]]).
  - cbn. rewrite Hscreen. discriminate.
  - intros _. cbn. lia.
  - cbn. rewrite Hscreen. discriminate.
Qed.

Lemma left_quiz_counted stored0 s s' :
  numQuestions s' = numQuestions s → storage s' = storage s →
  screen s' ≠ AdaptiveQuiz →
  counted stored0 s → counted stored0 s'.
Proof.
  intros Hn Hsto Hscreen (H1 & _ & H3).
  split; [by rewrite Hn|split; [done|by rewrite Hsto]].
Qed.

Lemma submitOpenAnswer_counted stored0 r c :
  counted stored0 c → counted stored0 (submitOpenAnswer r c).1.
Proof. intros Hinv. unfold submitOpenAnswer. by repeat case_match. Qed.

Lemma handleStepNext_counted stored0 r c :
  counted stored0 c → counted stored0 (handleStepNext r c).1.
Proof. intros Hinv. unfold handleStepNext. by repeat case_match. Qed.

Lemma setNumQuestions_counted stored0 n s :
  screen s = Start → (3 <=? n)%nat = true → (n <=? 50)%nat = true →
  counted stored0 s → counted stored0 (setNumQuestions n s).
Proof.
  intros Hscreen Hlo Hhi (_ & _ & Hstore).
  split; [cbn; split; by apply Nat.leb_le|split; [|exact Hstore]].
  cbn. rewrite Hscreen. discriminate.
Qed.

Lemma dispatch_counted stored0 ev s :
  fetch_succeeds ev → counted stored0 s → counted stored0 (dispatch ev s).1.
Proof.
  intros Hev Hinv. unfold dispatch.
  destruct ev; repeat case_match; subst;
    repeat match goal with
           | H : _ && _ = true |- _ => apply andb_true_iff in H as [? ?]
           | H : bool_decide _ = true |- _ => apply bool_decide_eq_true in H
           | H : showing _ _ = true |- _ => apply showing_on_quiz in H
           end;
    first
      [ exact Hinv
      | by apply startQuiz_counted
      | by apply submitOpenAnswer_counted
      | by apply handleStepNext_counted
      | by apply setNumQuestions_counted
      | by (apply (left_quiz_counted stored0 s); [done..|exact Hinv])
      | apply next_handler_counted; [apply handleMCQNext_next|done..]
      | apply next_handler_counted; [apply handleOpenNext_next|done..]
      | apply next_handler_counted; [apply handleScenarioNext_next|done..] ].
Qed.

Lemma run_counted stored0 evs s :
  Forall fetch_succeeds evs →
  counted stored0 s → counted stored0 (run evs s).1.
Proof.
  intros Hok. revert s.
  induction Hok as [|ev rest Hev _ IH]; intros s Hinv; [done|].
  cbn [run]. pose proof (dispatch_counted stored0 ev s Hev Hinv) as H1.
  destruct (dispatch ev s) as [s1 sent1]. specialize (IH s1 H1).
  by destruct (run rest s1).
Qed.

(** In a run from the start in which every fetch of a next item is
    answered with an item, every session sealed during the run has exactly
    as many history entries as its configured total. *)
Theorem sealed_history_has_total_entries stored0 evs sealed :
  Forall fetch_succeeds evs →
  sealed ∈ Store.loadSessions (storage (run evs (initial stored0)).1) →
  sealed ∈ Store.loadSessions stored0
  ∨ length (s_history sealed) = total sealed.
Proof.
  intros Hok.
  assert (counted stored0 (initial stored0)) as Hinit.
  { split; [cbn; lia|split; [discriminate|by left]]. }
  destruct (run_counted stored0 evs _ Hok Hinit) as (_ & _ & Hstore).
  apply Hstore.
Qed.

Lemma clean_quiz_fetches : Forall fetch_succeeds Sample.clean_quiz.
Proof.
  unfold Sample.clean_quiz, Sample.two_answered.
  repeat (apply Forall_cons; split; [first [exact I|by do 2 eexists]|]).
  apply Forall_nil_2.
Defined.

Lemma sealed_history_has_total_entries_witness :
  let s := (run Sample.clean_quiz (initial Store.Missing)).1 in
  ∃ sealed, Store.loadSessions (storage s) = [sealed]
            ∧ total sealed = 3
            ∧ length (s_history sealed) = total sealed.
Proof.
  cbn zeta.
  assert (∃ x, Store.loadSessions
                 (storage (run Sample.clean_quiz (initial Store.Missing)).1)
               = [x] ∧ total x = 3) as (x & Hx & Ht).
  { vm_compute. eexists. split; reflexivity. }
  exists x. split; [exact Hx|]. split; [exact Ht|].
  destruct (sealed_history_has_total_entries Store.Missing Sample.clean_quiz
              x clean_quiz_fetches) as [Hold|Hlen].
  - rewrite Hx. apply list_elem_of_here.
  - by apply elem_of_nil in Hold.
  - exact Hlen.
Defined.

Lemma or_str_truthy message fallback :
  fallback ≠ "" →
  Js.truthy_str (Some (Js.or_str (Some message) fallback)) = true.
Proof.
  intros Hf. unfold Js.or_str, Js.truthy_str.
  destruct (String.eqb_spec message ""); apply negb_true_iff;
    by apply String.eqb_neq.
Qed.

Lemma showing_McqCard_inv s :
  showing McqCard s = true →
  screen s = AdaptiveQuiz ∧ loading s = false
  ∧ Js.truthy_str (quizError (st_results s)) = false
  ∧ evaluation (st_l2 s) = None
  ∧ ∃ q, currentQ (st_core s) = Some q ∧ q_type q = Mcq.
Proof.
  unfold showing, quiz_view. intros H.
  apply andb_true_iff in H as [H1 H2].
  apply bool_decide_eq_true in H1, H2.
  repeat case_match; try discriminate; by eauto 10.
Qed.

Lemma showing_intro v s :
  screen s = AdaptiveQuiz → quiz_view s = v → showing v s = true.
Proof.
  intros Hs Hv. unfold showing.
  by rewrite !bool_decide_eq_true_2.
Qed.

Lemma run_fst_cons ev rest s :
  (run (ev :: rest) s).1 = (run rest (dispatch ev s).1).1.
Proof.
  cbn [run]. destruct (dispatch ev s) as [s1 sent1]. cbn [fst].
  by destruct (run rest s1).
Qed.

(** A rejected fetch leaves everything but the history, the scores and
    the error message as it was. *)
Lemma advance_rejected s e pct t io message :
  (qIndex (st_core s) < numQuestions s)%nat →
  next io = Js.Rejected message →
  let s' := (advance s e pct t io).1 in
  screen s' = screen s
  ∧ loading s' = false
  ∧ Js.truthy_str (quizError (st_results s')) = true
  ∧ numQuestions s' = numQuestions s
  ∧ qIndex (st_core s') = qIndex (st_core s)
  ∧ currentQ (st_core s') = currentQ (st_core s)
  ∧ currentDiff (st_core s') = currentDiff (st_core s)
  ∧ st_l1 s' = st_l1 s
  ∧ st_l2 s' = st_l2 s
  ∧ st_l3 s' = st_l3 s.
Proof.
  intros Hidx Hfail. apply Nat.leb_gt in Hidx. cbn zeta.
  unfold advance. rewrite Hidx.
  unfold fetchNextQuestion. rewrite Hfail. cbn [next_outcome fst].
  split_and!; try reflexivity.
  cbn -[Js.or_str Js.truthy_str]. by apply or_str_truthy.
Qed.

Lemma advance_accepted s e pct t io q data :
  (qIndex (st_core s) < numQuestions s)%nat →
  next_outcome (next io) = inr (q, data) →
  currentQ (st_core (advance s e pct t io).1) = Some q.
Proof.
  intros Hidx Hok. apply Nat.leb_gt in Hidx.
  unfold advance. rewrite Hidx.
  unfold fetchNextQuestion. by rewrite Hok.
Qed.

Lemma click_mcq_next s io q0 :
  showing McqCard s = true →
  revealed (st_l1 s) = true →
  currentQ (st_core s) = Some q0 →
  ∃ e pct t,
    dispatch (ClickMCQNext io) s = advance s e pct t io
    ∧ question e = q_question q0
    ∧ isCorrect e = same_key (selected (st_l1 s)) (q_correct q0)
    ∧ e_selected e = selected (st_l1 s).
Proof.
  intros Hshow Hrev Hq. unfold dispatch. rewrite Hshow, Hrev. cbn [andb].
  unfold handleMCQNext. rewrite Hq. do 3 eexists. by split_and!.
Qed.

(** The defect behind C2 and C5, for every answered multiple-choice item
    that is not the last: when the fetch of the next item is rejected, the
    error box is shown with the entry already in the history; "Retry"
    followed by "Next" appends an entry for the same item again. *)
Lemma retry_repeats_append s io1 io2 message q data :
  showing McqCard s = true →
  revealed (st_l1 s) = true →
  (qIndex (st_core s) < numQuestions s)%nat →
  next io1 = Js.Rejected message →
  next_outcome (next io2) = inr (q, data) →
  let s1 := (dispatch (ClickMCQNext io1) s).1 in
  let s3 := (run [ClickMCQNext io1; ClickRetry; ClickMCQNext io2] s).1 in
  showing ErrorBox s1 = true
  ∧ ∃ e1 e2,
      history (st_core s1) = history (st_core s) ++ [e1]
      ∧ history (st_core s3) = history (st_core s) ++ [e1; e2]
      ∧ question e1 = question e2
      ∧ isCorrect e1 = isCorrect e2
      ∧ e_selected e1 = e_selected e2
      ∧ currentQ (st_core s3) = Some q.
Proof.
  intros Hshow Hrev Hidx Hfail Hok.
  destruct (showing_McqCard_inv s Hshow)
    as (Hscreen & Hload & Herr & Hev & q0 & Hq0 & Htype).
  cbn zeta. rewrite !run_fst_cons. cbn [run fst].
  destruct (click_mcq_next s io1 q0 Hshow Hrev Hq0)
    as (e1 & pct1 & t1 & -> & Hq1 & Hc1 & Hs1).
  destruct (advance_rejected s e1 pct1 t1 io1 message Hidx Hfail)
    as (Fscreen & Fload & Ferr & Fnum & Fidx & Fq & Fdiff & Fl1 & Fl2 & Fl3).
  pose proof (advance_history s e1 pct1 t1 io1) as Fhist.
  set (s1 := (advance s e1 pct1 t1 io1).1) in *.
  assert (showing ErrorBox s1 = true) as Hbox.
  { apply showing_intro; [congruence|].
    unfold quiz_view. by rewrite Fload, Ferr. }
  split; [exact Hbox|].
  assert ((dispatch ClickRetry s1).1 = setQuizError None s1) as ->.
  { unfold dispatch. by rewrite Hbox. }
  set (s2 := setQuizError None s1).
  assert (showing McqCard s2 = true) as Hcard.
  { apply showing_intro; [unfold s2; cbn -[s1]; congruence|].
    unfold quiz_view, s2. cbn -[s1].
    rewrite Fload, Fq, Hq0, Htype, Fl2, Hev. done. }
  assert (revealed (st_l1 s2) = true) as Hrev2.
  { unfold s2. cbn -[s1]. by rewrite Fl1. }
  assert (currentQ (st_core s2) = Some q0) as Hq2.
  { unfold s2. cbn -[s1]. by rewrite Fq. }
  destruct (click_mcq_next s2 io2 q0 Hcard Hrev2 Hq2)
    as (e2 & pct2 & t2 & -> & Hq2' & Hc2 & Hs2).
  exists e1, e2. split; [exact Fhist|]. split_and!.
  - rewrite advance_history. unfold s2. cbn -[s1].
    rewrite Fhist. by rewrite <- app_assoc.
  - congruence.
  - rewrite Hc1, Hc2. unfold s2. cbn -[s1]. by rewrite Fl1.
  - rewrite Hs1, Hs2. unfold s2. cbn -[s1]. by rewrite Fl1.
  - apply (advance_accepted s2 e2 pct2 t2 io2 q data); [|done].
    unfold s2. cbn -[s1]. by rewrite Fidx, Fnum.
Qed.

End QuizRuns.

(** ** The scenario stepper *)

Section Stepper.

Import Quiz.

Lemma totalSteps_pos q : (1 ≤ totalSteps q)%nat.
Proof.
  unfold totalSteps. destruct (decision_points q) as [[|p ps]|]; cbn; lia.
Qed.

Lemma totalSteps_points q points :
  decision_points q = Some points → points ≠ [] →
  totalSteps q = length points.
Proof. intros Hq Hne. unfold totalSteps. rewrite Hq. by destruct points. Qed.

Lemma or_str_empty (v : option string) text :
  v = Some text → Js.or_str v "" = text.
Proof.
  intros ->. unfold Js.or_str. destruct (String.eqb_spec text ""); by subst.
Qed.

(** An answer that lets [handleStepNext] through is present and not
    blank. *)
Lemma stepAnswer_not_blank s :
  Js.blank (stepAnswer s) = false →
  ∃ text, stepAnswers (st_l3 s) !! currentStep (st_l3 s) = Some text
          ∧ Js.blank text = false.
Proof.
  unfold stepAnswer.
  destruct (stepAnswers (st_l3 s) !! currentStep (st_l3 s)) as [text|] eqn:E.
  - rewrite (or_str_empty (Some text) text eq_refl). eauto.
  - cbn. discriminate.
Qed.

Lemma stepper_inv_same s s' : same_item s s' → stepper_inv s → stepper_inv s'.
Proof. unfold same_item, stepper_inv. intros (-> & -> & ->). done. Qed.

Lemma stepper_inv_reset s' : reset_l3 s' → stepper_inv s'.
Proof.
  unfold reset_l3, stepper_inv. intros [-> ->]. split_and!.
  - lia.
  - intros q _. apply totalSteps_pos.
  - intros j text H. by rewrite lookup_empty in H.
  - intros j Hj. lia.
Qed.

Lemma finishQuiz_same c hist io s : same_item s (finishQuiz c hist io s).1.
Proof.
  unfold finishQuiz, same_item.
  destruct (fb io); [done|]. by destruct (saved io).
Qed.

Lemma fetchNextQuestion_stepper c hist scores pct t arrived r s :
  let s' := (fetchNextQuestion c hist scores pct t arrived r s).1 in
  same_item s s' ∨ reset_l3 s'.
Proof.
  cbn zeta. unfold fetchNextQuestion.
  destruct (next_outcome r) as [?|[? ?]]; [by left|by right].
Qed.

Lemma advance_stepper c e pct t io :
  same_item c (advance c e pct t io).1 ∨ reset_l3 (advance c e pct t io).1.
Proof.
  unfold advance. case_match.
  - left. destruct (finishQuiz_same c (history (st_core c) ++ [e]) (finish io)
                      (setRecentScores (recentScores (st_core c) ++ [pct])
                         (setHistory (history (st_core c) ++ [e]) c)))
      as (H1 & H2 & H3).
    split_and!; [by rewrite H1 | by rewrite H2 | by rewrite H3].
  - destruct (fetchNextQuestion_stepper c (history (st_core c) ++ [e])
                (recentScores (st_core c) ++ [pct]) pct t (arrived_at io)
                (next io)
                (setRecentScores (recentScores (st_core c) ++ [pct])
                   (setHistory (history (st_core c) ++ [e]) c)))
      as [(H1 & H2 & H3)|Hr]; [left|by right].
    split_and!; [by rewrite H1 | by rewrite H2 | by rewrite H3].
Qed.

Lemma next_handler_stepper h io c :
  h ∈ next_handlers → stepper_inv c → stepper_inv (h io c).1.
Proof.
  intros Hh Hinv.
  destruct (next_handler_advances h io c Hh) as [->|(e & pct & t & ->)];
    [done|].
  destruct (advance_stepper c e pct t io) as [Hs|Hr].
  - by apply (stepper_inv_same c).
  - by apply stepper_inv_reset.
Qed.

Lemma startQuiz_stepper arrived r c :
  stepper_inv c → stepper_inv (startQuiz arrived r c).1.
Proof.
  intros Hinv. unfold startQuiz. case_match; [done|].
  apply stepper_inv_reset. by destruct r as [?|? ? [?|]].
Qed.

Lemma handleStepNext_stepper r c :
  stepper_inv c → stepper_inv (handleStepNext r c).1.
Proof.
  intros Hinv. unfold handleStepNext.
  destruct (String.eqb _ "") eqn:Hans; [done|].
  destruct (currentQ (st_core c)) as [q|] eqn:Hq; [|done].
  destruct (currentStep (st_l3 c) <? totalSteps q)%nat eqn:Hlt.
  - apply Nat.ltb_lt in Hlt.
    destruct (stepAnswer_not_blank c Hans) as (text & Htext & Hnb).
    destruct Hinv as (H1 & H2 & H3 & H4).
    unfold stepper_inv. cbn. rewrite Hq. split_and!.
    + lia.
    + intros q' [= <-]. lia.
    + intros j t Hj. apply H3 in Hj. lia.
    + intros j Hj.
      destruct (decide (j = currentStep (st_l3 c))) as [->|Hne]; [eauto|].
      apply H4. lia.
  - apply (stepper_inv_same c); [|done].
    by destruct r.
Qed.

Lemma typeStepAnswer_stepper text c :
  stepper_inv c →
  stepper_inv (setStepAnswers (insert (currentStep (st_l3 c)) text) c).
Proof.
  intros (H1 & H2 & H3 & H4). unfold stepper_inv. cbn. split_and!.
  - done.
  - done.
  - intros j t Hj.
    destruct (decide (currentStep (st_l3 c) = j)) as [<-|Hne]; [lia|].
    rewrite lookup_insert_ne in Hj by done. by apply H3 in Hj.
  - intros j Hj. rewrite lookup_insert_ne by lia. by apply H4.
Qed.

Lemma submitOpenAnswer_stepper r c :
  stepper_inv c → stepper_inv (submitOpenAnswer r c).1.
Proof.
  intros Hinv. apply (stepper_inv_same c); [|done].
  unfold submitOpenAnswer, same_item.
  repeat case_match; by split_and!.
Qed.

Lemma dispatch_stepper ev s : stepper_inv s → stepper_inv (dispatch ev s).1.
Proof.
  intros Hinv. unfold dispatch.
  destruct ev; repeat case_match; subst;
    first
      [ exact Hinv
      | apply (stepper_inv_same s); [by split_and!|exact Hinv]
      | by apply startQuiz_stepper
      | by apply submitOpenAnswer_stepper
      | by apply typeStepAnswer_stepper
      | by apply handleStepNext_stepper
      | by apply stepper_inv_reset
      | apply next_handler_stepper; [apply handleMCQNext_next|exact Hinv]
      | apply next_handler_stepper; [apply handleOpenNext_next|exact Hinv]
      | apply next_handler_stepper;
          [apply handleScenarioNext_next|exact Hinv] ].
Qed.

Lemma reachable_stepper s : reachable s → stepper_inv s.
Proof.
  induction 1 as [stored|s ev _ IH].
  - by apply stepper_inv_reset.
  - by apply dispatch_stepper.
Qed.

Lemma no_l3_nil : no_l3 [].
Proof. intros ? ? ? ?. apply not_elem_of_nil. Qed.

Lemma advance_no_l3 c e pct t io : no_l3 (advance c e pct t io).2.
Proof.
  intros ? ? ? ? Hin. unfold advance, finishQuiz, fetchNextQuestion in Hin.
  destruct (numQuestions c <=? qIndex (st_core c))%nat;
    [destruct (fb (finish io)); [|destruct (saved (finish io))]|];
    cbn in Hin;
    rewrite ?elem_of_cons, ?elem_of_nil in Hin; intuition discriminate.
Qed.

Lemma next_handler_no_l3 h io c : h ∈ next_handlers → no_l3 (h io c).2.
Proof.
  intros Hh.
  destruct (next_handler_advances h io c Hh) as [->|(e & pct & t & ->)].
  - apply no_l3_nil.
  - apply advance_no_l3.
Qed.

Lemma startQuiz_no_l3 arrived r c : no_l3 (startQuiz arrived r c).2.
Proof.
  intros ? ? ? ? Hin. unfold startQuiz in Hin.
  repeat case_match; cbn in Hin;
    rewrite ?elem_of_cons, ?elem_of_nil in Hin; intuition discriminate.
Qed.

Lemma submitOpenAnswer_no_l3 r c : no_l3 (submitOpenAnswer r c).2.
Proof.
  intros ? ? ? ? Hin. unfold submitOpenAnswer in Hin.
  repeat case_match; cbn in Hin;
    rewrite ?elem_of_cons, ?elem_of_nil in Hin; intuition discriminate.
Qed.

Lemma dispatch_l3_only_from_stepper ev s sc pts answers prof :
  L3Evaluate sc pts answers prof ∈ (dispatch ev s).2 →
  ∃ r, ev = ClickStepNext r
       ∧ showing Stepper s = true
       ∧ Js.blank (stepAnswer s) = false
       ∧ dispatch ev s = handleStepNext r s.
Proof.
  intros Hin. unfold dispatch in *.
  destruct ev;
    try (exfalso; repeat case_match; subst; cbn [snd] in Hin;
         first
           [ by apply elem_of_nil in Hin
           | by apply startQuiz_no_l3 in Hin
           | by apply submitOpenAnswer_no_l3 in Hin
           | by (eapply next_handler_no_l3 in Hin;
                 [|first [ apply handleMCQNext_next
                         | apply handleOpenNext_next
                         | apply handleScenarioNext_next ]]) ]).
  destruct (showing Stepper s) eqn:Hshow; cbn [andb] in *;
    [|by apply elem_of_nil in Hin].
  destruct (evalLoading (st_l2 s)); cbn [orb negb] in *;
    [by apply elem_of_nil in Hin|].
  destruct (Js.blank (stepAnswer s)) eqn:Hb; cbn [negb] in *;
    [by apply elem_of_nil in Hin|].
  eauto.
Qed.

Lemma showing_Stepper_item s :
  showing Stepper s = true →
  ∃ q, currentQ (st_core s) = Some q ∧ q_type q = Scenario.
Proof.
  unfold showing, quiz_view. intros H.
  apply andb_true_iff in H as [_ H]. apply bool_decide_eq_true in H.
  repeat case_match; try discriminate; eauto.
Qed.

Lemma trimStart_white w rest :
  w ∈ Spec.white_space → Js.trimStart (w +:+ rest) = Js.trimStart rest.
Proof.
  intros Hw. unfold Spec.white_space in Hw. cbn [fmap list_fmap] in Hw.
  repeat (apply elem_of_cons in Hw as [->|Hw]; [reflexivity|]).
  by apply elem_of_nil in Hw.
Qed.

(** Text made of white space only is blank for [trim]. *)
Lemma white_only_blank text : Spec.white_only text → Js.blank text = true.
Proof.
  intros Hw. unfold Js.blank, Js.trim.
  assert (Js.trimStart text = "") as ->; [|reflexivity].
  induction Hw as [|w rest Hin _ IH]; [reflexivity|].
  by rewrite trimStart_white.
Qed.

Lemma not_blank_not_white text :
  Js.blank text = false → ¬ Spec.white_only text.
Proof. intros Hb Hw. apply white_only_blank in Hw. congruence. Qed.

Lemma reachable_run evs s : reachable s → reachable (run evs s).1.
Proof.
  revert s. induction evs as [|ev rest IH]; intros s Hs; [done|].
  cbn [run]. pose proof (reachable_dispatch s ev Hs) as H1.
  destruct (dispatch ev s) as [s1 sent1]. specialize (IH s1 H1).
  by destruct (run rest s1).
Qed.

(** C4, as the code has it.  In every state the learner can reach, with a
    scenario as the current item and [N] its number of steps (the number
    of its decision points when it has at least one, 3 when the list is
    empty or missing): the "next" button of a step whose answer is empty
    or made of white space only changes nothing and sends nothing; and
    whenever a grading request for the scenario is sent, it is sent by
    that button at step [N], it is the only request sent, and the map it
    carries has exactly the keys [1..N], each with text that is not empty
    and not white space only. *)
Theorem scenario_stepping s q :
  reachable s →
  currentQ (st_core s) = Some q →
  (∀ points, decision_points q = Some points → points ≠ [] →
             totalSteps q = length points)
  ∧ (decision_points q = None ∨ decision_points q = Some [] →
     totalSteps q = 3)
  ∧ (∀ r, Spec.white_only (stepAnswer s) →
          handleStepNext r s = (s, [])
          ∧ dispatch (ClickStepNext r) s = (s, []))
  ∧ (∀ ev sc pts answers prof,
        L3Evaluate sc pts answers prof ∈ (dispatch ev s).2 →
        (∃ r, ev = ClickStepNext r)
        ∧ (dispatch ev s).2 = [L3Evaluate sc pts answers prof]
        ∧ q_type q = Scenario
        ∧ currentStep (st_l3 s) = totalSteps q
        ∧ answers = stepAnswers (st_l3 s)
        ∧ Spec.filled (totalSteps q) answers).
Proof.
  intros Hreach Hq. split; [|split; [|split]].
  - intros points. apply totalSteps_points.
  - unfold totalSteps. by intros [-> | ->].
  - intros r Hw. apply white_only_blank in Hw as Hb. split.
    + unfold handleStepNext. fold (stepAnswer s).
      unfold Js.blank in Hb. by rewrite Hb.
    + unfold dispatch. rewrite Hb. by rewrite orb_true_r, andb_false_r.
  - intros ev sc pts answers prof Hin.
    destruct (dispatch_l3_only_from_stepper _ _ _ _ _ _ Hin)
      as (r & -> & Hshow & Hb & Hd).
    rewrite Hd in Hin |- *.
    destruct (showing_Stepper_item s Hshow) as (q' & Hq' & Htype).
    rewrite Hq in Hq'. injection Hq' as <-.
    destruct (reachable_stepper s Hreach) as (H1 & H2 & H3 & H4).
    specialize (H2 q Hq).
    destruct (stepAnswer_not_blank s Hb) as (text & Htext & Hnb).
    unfold handleStepNext in Hin |- *. fold (stepAnswer s) in Hin |- *.
    unfold Js.blank in Hb. rewrite Hb, Hq in Hin |- *.
    destruct (currentStep (st_l3 s) <? totalSteps q)%nat eqn:Hlt;
      [by apply elem_of_nil in Hin|].
    apply Nat.ltb_ge in Hlt.
    assert (currentStep (st_l3 s) = totalSteps q) as Hk by lia.
    assert (L3Evaluate sc pts answers prof
            = L3Evaluate (q_scenario q) (decision_points q)
                (stepAnswers (st_l3 s)) (proficiency s)) as Heq.
    { destruct r; cbn [snd] in Hin;
        by apply list_elem_of_singleton in Hin. }
    injection Heq as -> -> -> ->.
    split; [eauto|]. split; [by destruct r|]. split; [done|].
    split; [done|]. split; [done|].
    intros j. destruct (stepAnswers (st_l3 s) !! j) as [t|] eqn:Hj.
    + pose proof (H3 j t Hj) as Hrange. split; [lia|].
      apply not_blank_not_white.
      destruct (decide (j = currentStep (st_l3 s))) as [->|Hne'].
      * rewrite Htext in Hj. by injection Hj as <-.
      * destruct (H4 j ltac:(lia)) as (t' & Ht' & Hnb').
        rewrite Hj in Ht'. by injection Ht' as <-.
    + intros Hrange.
      destruct (decide (j = currentStep (st_l3 s))) as [->|Hne'].
      * by rewrite Htext in Hj.
      * destruct (H4 j ltac:(lia)) as (t' & Ht' & _). by rewrite Hj in Ht'.
Qed.

Lemma scenario_stepping_witness :
  let s := (run Sample.at_last_step (initial Store.Missing)).1 in
  reachable s
  ∧ totalSteps (Sample.scenario "An outage.") = 3
  ∧ currentStep (st_l3 s) = 3
  ∧ ∃ sc pts answers prof,
      (dispatch (ClickStepNext Sample.verdict) s).2
      = [L3Evaluate sc pts answers prof]
      ∧ Spec.filled 3 answers.
Proof.
  cbn zeta.
  assert (reachable (run Sample.at_last_step (initial Store.Missing)).1)
    as Hreach by (apply reachable_run; constructor).
  split; [exact Hreach|]. split; [reflexivity|]. split; [reflexivity|].
  exists (Some "An outage."), (Some Sample.outage),
    (stepAnswers
       (st_l3 (run Sample.at_last_step (initial Store.Missing)).1)),
    "intermediate".
  destruct (scenario_stepping _ (Sample.scenario "An outage.")
              Hreach eq_refl) as (_ & _ & _ & Hsend).
  destruct (Hsend (ClickStepNext Sample.verdict) (Some "An outage.")
              (Some Sample.outage)
              (stepAnswers
                 (st_l3 (run Sample.at_last_step (initial Store.Missing)).1))
              "intermediate")
    as (_ & Hsent & _ & _ & _ & Hfilled).
  { vm_compute. apply list_elem_of_here. }
  split; [exact Hsent | exact Hfilled].
Defined.

(** C4, as stated, fails for a scenario whose list of decision points is
    empty ([N = 0]): the stepper runs three steps, and the grading request
    sent at the third carries answers under the keys 1, 2 and 3, not an
    empty map. *)
Lemma three_steps_without_points :
  let s := (run Sample.three_answers (initial Store.Missing)).1 in
  let q := Sample.pointless "An outage." in
  let answers := stepAnswers (st_l3 s) in
  currentQ (st_core s) = Some q
  ∧ length (default [] (decision_points q)) = 0
  ∧ (dispatch (ClickStepNext Sample.verdict) s).2
    = [L3Evaluate (q_scenario q) (decision_points q) answers
         (proficiency s)]
  ∧ answers !! 1 = Some "Fail over to the replica."
  ∧ answers !! 2 = Some "Replay the write-ahead log."
  ∧ answers !! 3 = Some "Post an update every 30 minutes.".
Proof. vm_compute. by split_and!. Qed.

End Stepper.

(** ** The interview *)

Section InterviewLoop.

Import Interview.

(** The guard of [startRecording]: with any status but idle the call
    changes nothing, so no recorder is created and none starts. *)
Lemma startRecording_guard m s : status s ≠ Idle → startRecording m s = s.
Proof.
  intros Hs. unfold startRecording. by rewrite bool_decide_eq_false_2.
Qed.

Lemma startRecording_guard_witness :
  let s := run Sample.two_takes (initial "closures" "intermediate" true) in
  status s = Recording ∧ live s = [0] ∧ startRecording Granted s = s.
Proof.
  cbn zeta. split; [reflexivity|]. split; [reflexivity|].
  apply (startRecording_guard Granted). discriminate.
Defined.

(** C7. The learner holds the microphone button, goes back to the setup
    while the recorder runs and starts the interview again: the status is
    idle again although the first recorder still captures, and holding the
    button starts a second recorder.  Two captures are active. *)
Theorem second_capture_after_back :
  let s :=
    run Sample.back_while_recording (initial "closures" "intermediate" true) in
  phase s = Active ∧ made s = 2 ∧ live s = [0; 1].
Proof. vm_compute. by split_and!. Qed.

(** What the back arrow of the active phase does in every state: it
    returns to the setup and empties the exchange log (the chat messages
    and the per-question history) and the draft transcript; it leaves the
    speech queue, like every other cell, as it was. *)
Lemma back_discards_log_keeps_playback s :
  phase s = Active →
  let s' := dispatch ClickBack s in
  phase s' = Setup
  ∧ messages s' = []
  ∧ history s' = []
  ∧ transcript s' = ""
  ∧ synth s' = synth s
  ∧ (status s', isRecording s', live s', isMuted s')
    = (status s, isRecording s, live s, isMuted s).
Proof.
  intros Hp. cbn zeta. unfold dispatch. rewrite Hp.
  rewrite bool_decide_eq_true_2 by done. by split_and!.
Qed.

Lemma back_discards_log_keeps_playback_witness :
  let s := run Sample.asked_first (initial "closures" "intermediate" true) in
  let s' := dispatch ClickBack s in
  length (messages s) = 1
  ∧ phase s' = Setup ∧ messages s' = [] ∧ history s' = []
  ∧ synth s' = synth s.
Proof.
  cbn zeta. split; [reflexivity|].
  pose proof
    (back_discards_log_keeps_playback
       (run Sample.asked_first (initial "closures" "intermediate" true))
       eq_refl) as H.
  cbn zeta in H. destruct H as (H1 & H2 & H3 & _ & H5 & _).
  exact (conj H1 (conj H2 (conj H3 H5))).
Defined.

(** C8.  The learner leaves with the back arrow while the first question
    is being spoken: the log is emptied and the phase is the setup again,
    and the utterance is still in the speech queue; playback is not
    cancelled. *)
Theorem back_leaves_speech_playing :
  let s := run Sample.asked_first (initial "closures" "intermediate" true) in
  let s' := dispatch ClickBack s in
  phase s = Active
  ∧ synth s = Some ["What is a closure?"]
  ∧ phase s' = Setup
  ∧ messages s' = []
  ∧ synth s' = Some ["What is a closure?"]
  ∧ synth s' ≠ Some [].
Proof. vm_compute. by split_and!. Qed.

End InterviewLoop.

(** ** More on the quiz: what every run keeps *)

Section QuizInvariants.

Import Quiz.

Lemma run_keeps (P : state → Prop) evs s :
  (∀ ev s, P s → P (dispatch ev s).1) → P s → P (run evs s).1.
Proof.
  intros Hstep. revert s.
  induction evs as [|ev rest IH]; intros s Hs; [done|].
  rewrite run_fst_cons. apply IH. by apply Hstep.
Qed.

Lemma startQuiz_lists arrived r c :
  startQuiz arrived r c = (c, [])
  ∨ (history (st_core (startQuiz arrived r c).1) = []
     ∧ recentScores (st_core (startQuiz arrived r c).1) = []
     ∧ qIndex (st_core (startQuiz arrived r c).1) = 1
     ∧ numQuestions (startQuiz arrived r c).1 = numQuestions c
     ∧ storage (startQuiz arrived r c).1 = storage c).
Proof.
  unfold startQuiz. case_match; [by left|right].
  by destruct r as [?|? ? [?|]].
Qed.

Lemma dispatch_paired ev s : Inv.paired s → Inv.paired (dispatch ev s).1.
Proof.
  intros Hinv. unfold dispatch.
  assert (∀ h io, h ∈ next_handlers → Inv.paired (h io s).1) as Hnext.
  { intros h io Hh.
    destruct (next_handler_advances h io s Hh) as [->|(e & pct & t & ->)];
      [done|].
    unfold Inv.paired. rewrite advance_history, advance_recentScores.
    rewrite !length_app. cbn. unfold Inv.paired in Hinv. lia. }
  destruct ev; repeat case_match; subst;
    first
      [ exact Hinv
      | apply Hnext, handleMCQNext_next
      | apply Hnext, handleOpenNext_next
      | apply Hnext, handleScenarioNext_next
      | reflexivity
      | idtac ].
  - destruct (startQuiz_lists arrived r s) as [->|(Hh & Hr & _)]; [done|].
    unfold Inv.paired. by rewrite Hh, Hr.
  - unfold submitOpenAnswer. by repeat case_match.
  - unfold handleStepNext. by repeat case_match.
Qed.

(** Every run keeps one score percentage per history entry: the list sent
    to the item service and the history have the same length. *)
Theorem scores_pair_with_history stored evs :
  let s := (run evs (initial stored)).1 in
  length (recentScores (st_core s)) = length (history (st_core s)).
Proof. cbn zeta. apply (run_keeps Inv.paired); [apply dispatch_paired|done]. Qed.

Lemma fetchNextQuestion_index c hist scores pct t arrived r s :
  let s' := (fetchNextQuestion c hist scores pct t arrived r s).1 in
  screen s' = screen s
  ∧ numQuestions s' = numQuestions s
  ∧ storage s' = storage s
  ∧ (qIndex (st_core s') = qIndex (st_core s)
     ∨ qIndex (st_core s') = S (qIndex (st_core s))).
Proof.
  cbn zeta. unfold fetchNextQuestion.
  destruct (next_outcome r) as [?|[? ?]]; split_and!; auto.
Qed.

Lemma finishQuiz_store c hist io s :
  Store.loadSessions (storage (finishQuiz c hist io s).1)
  = take 50
      ({| s_topic := topic c; s_proficiency := proficiency c;
          s_level := "adaptive";
          s_score := length (List.filter passed hist);
          total := numQuestions c; date := today io;
          s_history := hist; s_feedback := "" |}
       :: Store.loadSessions (storage s)).
Proof.
  unfold finishQuiz. destruct (fb io); [done|]. by destruct (saved io).
Qed.

Lemma advance_in_range c e pct t io :
  screen c = AdaptiveQuiz →
  Inv.in_range c → Inv.in_range (advance c e pct t io).1.
Proof.
  intros Hscreen (Hn & Hquiz). destruct (Hquiz Hscreen) as [Hidx Hlen].
  pose proof (advance_history c e pct t io) as Hh.
  unfold advance in *. case_match eqn:Hlast.
  - destruct (finishQuiz_seals c (history (st_core c) ++ [e]) (finish io)
                (setRecentScores (recentScores (st_core c) ++ [pct])
                   (setHistory (history (st_core c) ++ [e]) c)))
      as (Hs & Hnum & _).
    split; [rewrite Hnum; exact Hn|]. rewrite Hs. discriminate.
  - apply Nat.leb_gt in Hlast.
    destruct (fetchNextQuestion_index c (history (st_core c) ++ [e])
                (recentScores (st_core c) ++ [pct]) pct t (arrived_at io)
                (next io)
                (setRecentScores (recentScores (st_core c) ++ [pct])
                   (setHistory (history (st_core c) ++ [e]) c)))
      as (Hs & Hnum & _ & Hq).
    split; [rewrite Hnum; exact Hn|]. intros _.
    rewrite Hh, Hnum, length_app.
    destruct Hq as [-> | ->]; cbn in *; lia.
Qed.

Lemma left_quiz_in_range s s' :
  numQuestions s' = numQuestions s → screen s' ≠ AdaptiveQuiz →
  Inv.in_range s → Inv.in_range s'.
Proof. intros Hn Hscreen (H1 & _). split; [by rewrite Hn|done]. Qed.

Lemma dispatch_in_range ev s : Inv.in_range s → Inv.in_range (dispatch ev s).1.
Proof.
  intros Hinv. unfold dispatch.
  assert (∀ h io, h ∈ next_handlers → screen s = AdaptiveQuiz →
                  Inv.in_range (h io s).1) as Hnext.
  { intros h io Hh Hs.
    destruct (next_handler_advances h io s Hh) as [->|(e & pct & t & ->)];
      [done|by apply advance_in_range]. }
  destruct ev; repeat case_match; subst;
    repeat match goal with
           | H : _ && _ = true |- _ => apply andb_true_iff in H as [? ?]
           | H : bool_decide _ = true |- _ => apply bool_decide_eq_true in H
           | H : showing _ _ = true |- _ => apply showing_on_quiz in H
           end;
    first
      [ exact Hinv
      | by (apply (left_quiz_in_range s); [done..|exact Hinv])
      | by (apply Hnext; [apply handleMCQNext_next|])
      | by (apply Hnext; [apply handleOpenNext_next|])
      | by (apply Hnext; [apply handleScenarioNext_next|])
      | idtac ].
  - (* the slider *)
    split; [cbn; split; by apply Nat.leb_le|].
    match goal with H : screen s = Start |- _ => cbn; rewrite H end.
    discriminate.
  - (* Start *)
    destruct Hinv as (Hn & Hquiz).
    destruct (startQuiz_lists arrived r s) as [->|(Hh & _ & Hq & Hnum & _)];
      [by split|].
    split; [by rewrite Hnum|]. intros _. rewrite Hh, Hq, Hnum. cbn. lia.
  - unfold submitOpenAnswer. by repeat case_match.
  - unfold handleStepNext. by repeat case_match.
Qed.

Lemma initial_in_range stored : Inv.in_range (initial stored).
Proof. split; [cbn; lia|discriminate]. Qed.

(** In every run, failed fetches and retries included, the configured
    number of items stays within 3..50, and on the quiz screen the counter
    stays within 1..[numQuestions] and is at most one ahead of the
    history. *)
Theorem counter_within_total stored evs :
  let s := (run evs (initial stored)).1 in
  (3 ≤ numQuestions s ≤ 50)%nat
  ∧ (screen s = AdaptiveQuiz →
       (1 ≤ qIndex (st_core s) ≤ numQuestions s)%nat
       ∧ (qIndex (st_core s) ≤ length (history (st_core s)) + 1)%nat).
Proof.
  cbn zeta.
  apply (run_keeps Inv.in_range); [apply dispatch_in_range|].
  apply initial_in_range.
Qed.

Lemma advance_storage c e pct t io :
  storage (advance c e pct t io).1 = storage c
  ∨ Store.loadSessions (storage (advance c e pct t io).1)
    = take 50
        ({| s_topic := topic c; s_proficiency := proficiency c;
            s_level := "adaptive";
            s_score :=
              length (List.filter passed (history (st_core c) ++ [e]));
            total := numQuestions c; date := today (finish io);
            s_history := history (st_core c) ++ [e]; s_feedback := "" |}
         :: Store.loadSessions (storage c)).
Proof.
  unfold advance. case_match.
  - right. by rewrite finishQuiz_store.
  - left. unfold fetchNextQuestion.
    by destruct (next_outcome (next io)) as [?|[? ?]].
Qed.

Lemma next_handler_store_sound stored0 h io c :
  h ∈ next_handlers → Inv.in_range c →
  Inv.store_sound stored0 c → Inv.store_sound stored0 (h io c).1.
Proof.
  intros Hh (Hn & _) Hstore.
  destruct (next_handler_advances h io c Hh) as [->|(e & pct & t & ->)];
    [done|].
  destruct (advance_storage c e pct t io) as [Hsame|Hnew].
  - unfold Inv.store_sound. by rewrite Hsame.
  - intros x Hx. rewrite Hnew in Hx. apply (subseteq_take 50) in Hx.
    apply elem_of_cons in Hx as [->|Hx]; [right|by apply Hstore].
    unfold Inv.well_sealed. cbn. split; [done|]. split; [done|].
    split; [done|exact Hn].
Qed.

Lemma dispatch_store_sound stored0 ev s :
  Inv.in_range s →
  Inv.store_sound stored0 s → Inv.store_sound stored0 (dispatch ev s).1.
Proof.
  intros Hrange Hinv. unfold dispatch.
  destruct ev; repeat case_match; subst;
    first
      [ exact Hinv
      | by (apply next_handler_store_sound; [apply handleMCQNext_next|..])
      | by (apply next_handler_store_sound; [apply handleOpenNext_next|..])
      | by (apply next_handler_store_sound;
              [apply handleScenarioNext_next|..])
      | idtac ].
  - destruct (startQuiz_lists arrived r s) as [->|(_ & _ & _ & _ & Hsto)];
      [done|].
    unfold Inv.store_sound. by rewrite Hsto.
  - unfold submitOpenAnswer. by repeat case_match.
  - unfold handleStepNext. by repeat case_match.
Qed.

Lemma run_store_sound stored evs :
  Inv.store_sound stored (run evs (initial stored)).1.
Proof.
  enough (Inv.in_range (run evs (initial stored)).1
          ∧ Inv.store_sound stored (run evs (initial stored)).1) as [_ H];
    [exact H|].
  apply (run_keeps (fun s => Inv.in_range s ∧ Inv.store_sound stored s)).
  - intros ev s [H1 H2]. split; [by apply dispatch_in_range|].
    by apply dispatch_store_sound.
  - split; [apply initial_in_range|]. intros x Hx. by left.
Qed.

(** Every session found in the browser's store after a run was there
    before the run or is as [finishQuiz] writes it: its score is the number
    of its history entries that pass the rule (the "Good" count of the test
    detail page), its feedback is empty (the text the feedback service
    returns is never stored), its level is "adaptive" and its total lies
    within 3..50. *)
Theorem stored_sessions_well_sealed stored evs :
  Forall
    (fun x =>
       x ∈ Store.loadSessions stored
       ∨ (s_score x = length (List.filter passed (s_history x))
          ∧ s_feedback x = ""
          ∧ s_level x = "adaptive"
          ∧ (3 ≤ total x ≤ 50)%nat))
    (Store.loadSessions (storage (run evs (initial stored)).1)).
Proof. apply Forall_forall. apply run_store_sound. Qed.

End QuizInvariants.

(** ** A grading request that is never answered *)

Section GradingLock.

Import Quiz.

Lemma run_snd_cons ev rest s :
  (run (ev :: rest) s).2 = (dispatch ev s).2 ++ (run rest (dispatch ev s).1).2.
Proof.
  cbn [run]. destruct (dispatch ev s) as [s1 sent1]. cbn [fst snd].
  by destruct (run rest s1).
Qed.

Lemma advance_sends_no_grading c e pct t io :
  Forall (fun x => Inv.is_grading x = false) (advance c e pct t io).2.
Proof.
  unfold advance, finishQuiz, fetchNextQuestion.
  repeat case_match; simplify_eq; cbn; repeat constructor.
Qed.

Lemma advance_evalLoading c e pct t io :
  evalLoading (st_l2 (advance c e pct t io).1) = evalLoading (st_l2 c).
Proof.
  unfold advance, finishQuiz, fetchNextQuestion.
  by repeat case_match; simplify_eq.
Qed.

Lemma dispatch_locked ev s :
  evalLoading (st_l2 s) = true →
  evalLoading (st_l2 (dispatch ev s).1) = true
  ∧ Forall (fun x => Inv.is_grading x = false) (dispatch ev s).2.
Proof.
  intros Hlock. unfold dispatch.
  assert (∀ h io, h ∈ next_handlers →
            evalLoading (st_l2 (h io s).1) = true
            ∧ Forall (fun x => Inv.is_grading x = false) (h io s).2)
    as Hnext.
  { intros h io Hh.
    destruct (next_handler_advances h io s Hh) as [->|(e & pct & t & ->)];
      [by split|].
    split; [by rewrite advance_evalLoading|apply advance_sends_no_grading]. }
  rewrite Hlock. cbn [orb negb andb].
  rewrite !andb_false_r.
  destruct ev; repeat case_match; subst;
    first
      [ by split
      | apply Hnext, handleMCQNext_next
      | apply Hnext, handleOpenNext_next
      | apply Hnext, handleScenarioNext_next
      | idtac ].
  unfold startQuiz. case_match; [by split|].
  destruct r as [?|? ? [?|]]; (split; [exact Hlock|repeat constructor]).
Qed.

(** Once [evalLoading] is set and the grading call has not answered (a
    rejected [/l2/evaluate] or [/l3/evaluate] leaves it set), no event
    clears it and no grading request is sent again: both submit buttons
    stay disabled, also across a new quiz. *)
Theorem grading_stays_locked evs s :
  evalLoading (st_l2 s) = true →
  evalLoading (st_l2 (run evs s).1) = true
  ∧ Forall (fun x => Inv.is_grading x = false) (run evs s).2.
Proof.
  revert s. induction evs as [|ev rest IH]; intros s Hlock.
  - by split.
  - destruct (dispatch_locked ev s Hlock) as [H1 H2].
    destruct (IH _ H1) as [H3 H4].
    rewrite run_fst_cons, run_snd_cons. split; [exact H3|].
    by apply Forall_app.
Qed.

Lemma grading_stays_locked_witness :
  let s := (run Scene.grading_fails (initial Store.Missing)).1 in
  evalLoading (st_l2 (run Scene.tries s).1) = true
  ∧ Forall (fun x => Inv.is_grading x = false) (run Scene.tries s).2.
Proof.
  cbn zeta. apply grading_stays_locked. vm_compute. reflexivity.
Defined.

End GradingLock.

(** ** The tally and the flags of the entries *)

Section Tally.

Import Quiz.

(** A grade that reaches six tenths of a positive maximum rounds to a
    percentage of at least 60. *)
Lemma percent_reaches_sixty (x : option Js.num) (m : Q) :
  (0 < m)%Q →
  Js.ge (Js.toNumber x)
    (Js.mul (Js.or_num (Some (Js.Fin m)) (Js.of_Z 10)) (Js.Fin (6 # 10)))
  = true →
  Js.ge (percent x (Some (Js.Fin m))) (Js.of_Z 60) = true.
Proof.
  intros Hm. unfold Js.or_num, percent. cbn [Js.truthy Js.toNumber].
  rewrite (Qeq_bool_false_of_lt m Hm). cbn [negb].
  rewrite ge_scaled by exact Hm.
  destruct (Js.toNumber x) as [q| | |]; cbn [Js.div].
  - rewrite (Qeq_bool_false_of_lt m Hm).
    cbn [Js.ge Js.mul Js.round Js.of_Z].
    rewrite !Qle_bool_iff. intros H.
    change (inject_Z 60 <= inject_Z (Qfloor (q / m * inject_Z 100 + (1 # 2))))%Q.
    rewrite <- Zle_Qle.
    assert (60 = Qfloor (inject_Z 60))%Z as -> by (symmetry; apply Qfloor_Z).
    apply Qfloor_resp_le.
    assert (inject_Z 60 == (6 # 10) * inject_Z 100)%Q as -> by reflexivity.
    apply Qle_trans with (q / m * inject_Z 100)%Q.
    + apply Qmult_le_compat_r; [exact H|discriminate].
    + rewrite <- (Qplus_0_r (q / m * inject_Z 100)) at 1.
      apply Qplus_le_r. discriminate.
  - assert (Qle_bool 0 m = true) as ->; [|done].
    apply Qle_bool_iff. by apply Qlt_le_weak.
  - assert (Qle_bool 0 m = true) as ->; [|done].
    apply Qle_bool_iff. by apply Qlt_le_weak.
  - done.
Qed.

Lemma flagged_of_percent x m :
  (0 < m)%Q →
  ∀ q lvl d t sel cor,
    Inv.flagged
      {| question := q; level := lvl; difficulty := d;
         isCorrect := Js.ge (percent x (Some (Js.Fin m))) (Js.of_Z 60);
         score := x; max_score := Some (Js.Fin m); timeTaken := t;
         e_selected := sel; e_correct := cor |}.
Proof.
  intros Hm q lvl d t sel cor. unfold Inv.flagged, passed.
  cbn [isCorrect score max_score].
  destruct (Js.ge (percent x (Some (Js.Fin m))) (Js.of_Z 60)) eqn:Hp;
    [done|].
  cbn [orb].
  destruct (Js.ge (Js.toNumber x) _) eqn:Hs; [|done].
  apply (percent_reaches_sixty x m Hm) in Hs. congruence.
Qed.

Lemma graded_on_scale_none s :
  evaluation (st_l2 s) = None → scenarioEval (st_l3 s) = None →
  Inv.graded_on_scale s.
Proof. intros H2 H3. split; intros ev Hev; congruence. Qed.

Lemma advance_graded c e pct t io :
  Inv.graded_on_scale c → Inv.graded_on_scale (advance c e pct t io).1.
Proof.
  intros Hinv. unfold advance, finishQuiz, fetchNextQuestion.
  repeat case_match; simplify_eq; first [exact Hinv|by apply graded_on_scale_none].
Qed.

Lemma advance_tally c e pct t io :
  Inv.flagged e → Inv.tally_inv c → Inv.tally_inv (advance c e pct t io).1.
Proof.
  intros He [Hg Hh]. split; [by apply advance_graded|].
  rewrite advance_history. apply Forall_app. split; [exact Hh|].
  by apply Forall_singleton.
Qed.

Lemma handleMCQNext_tally io c :
  Inv.tally_inv c → Inv.tally_inv (handleMCQNext io c).1.
Proof.
  intros Hinv. unfold handleMCQNext. case_match; [|exact Hinv].
  apply advance_tally; [|exact Hinv].
  unfold Inv.flagged, passed. cbn. by rewrite orb_false_r.
Qed.

Lemma handleOpenNext_tally io c :
  Inv.tally_inv c → Inv.tally_inv (handleOpenNext io c).1.
Proof.
  intros Hinv. unfold handleOpenNext.
  destruct (evaluation (st_l2 c)) as [ev|] eqn:Hev; [|exact Hinv].
  destruct (currentQ (st_core c)) as [q|]; [|exact Hinv].
  apply advance_tally; [|exact Hinv].
  destruct Hinv as [[H2 _] _]. destruct (H2 ev Hev) as (m & -> & Hm).
  by apply flagged_of_percent.
Qed.

Lemma handleScenarioNext_tally io c :
  Inv.tally_inv c → Inv.tally_inv (handleScenarioNext io c).1.
Proof.
  intros Hinv. unfold handleScenarioNext.
  destruct (scenarioEval (st_l3 c)) as [ev|] eqn:Hev; [|exact Hinv].
  destruct (currentQ (st_core c)) as [q|]; [|exact Hinv].
  apply advance_tally; [|exact Hinv].
  destruct Hinv as [[_ H3] _]. destruct (H3 ev Hev) as (m & -> & Hm).
  cbn [Js.truthy]. rewrite (Qeq_bool_false_of_lt m Hm). cbn [negb].
  by apply flagged_of_percent.
Qed.

Lemma dispatch_tally ev s :
  Inv.graded_well ev → Inv.tally_inv s → Inv.tally_inv (dispatch ev s).1.
Proof.
  intros Hev Hinv. unfold dispatch.
  destruct ev; repeat case_match; subst;
    first
      [ exact Hinv
      | by apply handleMCQNext_tally
      | by apply handleOpenNext_tally
      | by apply handleScenarioNext_tally
      | idtac ].
  - (* Start *)
    unfold startQuiz. case_match; [exact Hinv|].
    destruct r as [?|? ? [?|]];
      (split; [by apply graded_on_scale_none|by apply Forall_nil]).
  - (* submitting an open answer *)
    destruct Hinv as [[H2 H3] Hh]. unfold submitOpenAnswer.
    repeat case_match; subst; try (by split); (split; [split|exact Hh]);
      try exact H3.
    intros ev Hev'. cbn in Hev'. subst. exact Hev.
  - (* the last step of a scenario *)
    destruct Hinv as [[H2 H3] Hh]. unfold handleStepNext.
    repeat case_match; subst; try (by split); (split; [split|exact Hh]);
      try exact H2.
    intros ev Hev'. cbn in Hev'. subst. exact Hev.
  - (* Start over *)
    split; [by apply graded_on_scale_none|by apply Forall_nil].
  - (* Try again *)
    split; [by apply graded_on_scale_none|by apply Forall_nil].
Qed.

(** When every grading result that arrives carries a positive maximum, the
    flag [isCorrect] of each history entry already decides the pass rule:
    the tally of the results screen is the number of entries Inv.flagged
    correct. *)
Theorem tally_counts_flags stored evs :
  Forall Inv.graded_well evs →
  let s := (run evs (initial stored)).1 in
  Forall (fun e => passed e = isCorrect e) (history (st_core s))
  ∧ resultScore s = length (List.filter isCorrect (history (st_core s))).
Proof.
  intros Hevs. cbn zeta.
  assert (Inv.tally_inv (run evs (initial stored)).1) as [_ Hflags].
  { assert (Inv.tally_inv (initial stored)) as H0.
    { split; [by apply graded_on_scale_none|by apply Forall_nil]. }
    revert H0. generalize (initial stored).
    induction Hevs as [|ev rest Hev _ IH]; intros s Hs; [exact Hs|].
    rewrite run_fst_cons. apply IH. by apply dispatch_tally. }
  split; [exact Hflags|].
  unfold resultScore. induction Hflags as [|e l He _ IH]; [done|].
  cbn [List.filter]. rewrite He. destruct (isCorrect e); cbn; by rewrite IH.
Qed.

Lemma essay_graded_well : Forall Inv.graded_well Scene.essay_graded.
Proof.
  unfold Scene.essay_graded, Scene.essay_answered. cbn [app].
  repeat (apply Forall_cons; split); try apply Forall_nil; cbn;
    try exact I.
  exists (inject_Z 10). split; reflexivity.
Qed.

Lemma tally_counts_flags_witness :
  let s := (run Scene.essay_graded (initial Store.Missing)).1 in
  Forall (fun e => passed e = isCorrect e) (history (st_core s))
  ∧ resultScore s = length (List.filter isCorrect (history (st_core s))).
Proof. exact (tally_counts_flags Store.Missing _ essay_graded_well). Defined.

End Tally.

(** ** Finishing, the store over several quizzes, and the stepper's answers *)

Section Finishing.

Import Quiz.

(** When the archive call [/session/save] is rejected, the results screen
    shows the failure text in place of the feedback that had arrived; the
    session is in the browser's store all the same, and the spinner is
    off. *)
Theorem archive_failure_hides_feedback c hist io s message :
  saved io = Js.Rejected message →
  let s' := (finishQuiz c hist io s).1 in
  feedback (st_results s') = "Could not generate feedback."
  ∧ feedbackLoading (st_results s') = false
  ∧ screen s' = Results
  ∧ ∃ sealed, Store.loadSessions (storage s') !! 0 = Some sealed
              ∧ s_history sealed = hist ∧ s_feedback sealed = "".
Proof.
  intros Hsaved. cbn zeta.
  pose proof (finishQuiz_sealed c hist io s) as Hsealed.
  split_and!; [..|eexists; split; [exact Hsealed|by split]];
    unfold finishQuiz; rewrite Hsaved; by destruct (fb io).
Qed.

Lemma archive_failure_hides_feedback_witness :
  let s' :=
    (finishQuiz (initial Store.Missing) Sample.entries Scene.unarchived
       (initial Store.Missing)).1 in
  feedback (st_results s') = "Could not generate feedback."
  ∧ feedbackLoading (st_results s') = false
  ∧ screen s' = Results
  ∧ ∃ sealed, Store.loadSessions (storage s') !! 0 = Some sealed
              ∧ s_history sealed = Sample.entries ∧ s_feedback sealed = "".
Proof.
  exact (archive_failure_hides_feedback (initial Store.Missing)
           Sample.entries Scene.unarchived (initial Store.Missing)
           "Failed to fetch" eq_refl).
Defined.

Lemma take_cons_take {A} (x : A) (l : list A) :
  take 50 (x :: take 50 l) = take 50 (x :: l).
Proof.
  change 50%nat with (S 49). cbn [take]. f_equal.
  by rewrite take_take.
Qed.

Lemma saveAll_snoc l y c :
  Inv.saveAll (l ++ [y]) c = Store.saveSession y (Inv.saveAll l c).
Proof. unfold Inv.saveAll. by rewrite foldl_app. Qed.

Lemma saveSession_load (y : session) c :
  Store.loadSessions (Store.saveSession y c)
  = take 50 (y :: Store.loadSessions c).
Proof. reflexivity. Qed.

(** Saving one session after another keeps the store newest first and
    drops from the old end: after saving [x], then each of [ss] in order,
    the store holds the first 50 of the saved sessions in reverse order
    followed by what was stored before; in particular never more than
    50. *)
Theorem saveAll_newest_first (x : session) (ss : list session)
    (c : Store.cell session) :
  Store.loadSessions (Inv.saveAll (x :: ss) c)
  = take 50 (rev (x :: ss) ++ Store.loadSessions c)
  ∧ (length (Store.loadSessions (Inv.saveAll (x :: ss) c)) ≤ 50)%nat.
Proof.
  assert (Store.loadSessions (Inv.saveAll (x :: ss) c)
          = take 50 (rev (x :: ss) ++ Store.loadSessions c)) as E.
  { induction ss as [|y ss IH] using rev_ind; [reflexivity|].
    rewrite app_comm_cons, saveAll_snoc, saveSession_load.
    rewrite IH, take_cons_take.
    by rewrite rev_unit. }
  split; [exact E|]. rewrite E, length_take. lia.
Qed.

Lemma advance_l3 c e pct t io :
  st_l3 (advance c e pct t io).1 = st_l3 c
  ∨ (currentStep (st_l3 (advance c e pct t io).1) = 1
     ∧ stepAnswers (st_l3 (advance c e pct t io).1) = ∅).
Proof.
  unfold advance, finishQuiz, fetchNextQuestion.
  repeat case_match; simplify_eq; first [by left|by right].
Qed.

(** An event either resets the scenario sub-state (pointer 1, no answers)
    or leaves every answer other than the one at the pointer as it was and
    does not move the pointer back: answers to earlier decision points
    cannot be changed once the pointer has passed them. *)
Theorem step_answers_frozen ev s k :
  let s' := (dispatch ev s).1 in
  (currentStep (st_l3 s') = 1 ∧ stepAnswers (st_l3 s') = ∅)
  ∨ ((currentStep (st_l3 s) ≤ currentStep (st_l3 s'))%nat
     ∧ (k ≠ currentStep (st_l3 s) →
        stepAnswers (st_l3 s') !! k = stepAnswers (st_l3 s) !! k)).
Proof.
  cbn zeta. unfold dispatch.
  assert (∀ s' : state, st_l3 s' = st_l3 s →
            (currentStep (st_l3 s') = 1 ∧ stepAnswers (st_l3 s') = ∅)
            ∨ ((currentStep (st_l3 s) ≤ currentStep (st_l3 s'))%nat
               ∧ (k ≠ currentStep (st_l3 s) →
                  stepAnswers (st_l3 s') !! k = stepAnswers (st_l3 s) !! k)))
    as Hsame.
  { intros s' ->. right. by split. }
  assert (∀ h io, h ∈ next_handlers →
            (currentStep (st_l3 (h io s).1) = 1
             ∧ stepAnswers (st_l3 (h io s).1) = ∅)
            ∨ ((currentStep (st_l3 s) ≤ currentStep (st_l3 (h io s).1))%nat
               ∧ (k ≠ currentStep (st_l3 s) →
                  stepAnswers (st_l3 (h io s).1) !! k
                  = stepAnswers (st_l3 s) !! k)))
    as Hnext.
  { intros h io Hh.
    destruct (next_handler_advances h io s Hh) as [->|(e & pct & t & ->)];
      [by apply Hsame|].
    destruct (advance_l3 s e pct t io) as [E|E]; [by apply Hsame|by left]. }
  destruct ev; repeat case_match; subst;
    first
      [ by apply Hsame
      | apply Hnext, handleMCQNext_next
      | apply Hnext, handleOpenNext_next
      | apply Hnext, handleScenarioNext_next
      | by left
      | by (right; split)
      | idtac ].
  - unfold startQuiz. case_match; [by apply Hsame|].
    left. by destruct r as [?|? ? [?|]].
  - unfold submitOpenAnswer. repeat case_match; by apply Hsame.
  - right. split; [done|]. intros Hk. cbn. by rewrite lookup_insert_ne.
  - unfold handleStepNext.
    repeat case_match; first [by apply Hsame|right; split; [cbn; lia|done]].
Qed.

Lemma advance_label c e pct t io :
  let out := advance c e pct t io in
  if Inv.isLast c
  then screen out.1 = Results
       ∧ List.filter Inv.is_next out.2 = []
       ∧ Feedback (topic c) (history (st_core c) ++ [e]) ∈ out.2
  else screen out.1 = screen c ∧ ∃ body, out.2 = [AdaptiveNext body].
Proof.
  cbn zeta. unfold Inv.isLast, advance. case_match.
  - unfold finishQuiz.
    destruct (fb (finish io)); [|destruct (saved (finish io))]; cbn;
      (split_and!; [done..|apply elem_of_cons; by left]).
  - unfold fetchNextQuestion.
    destruct (next_outcome (next io)) as [?|[? ?]]; cbn; eauto.
Qed.

(** The label of a "next" button tells what the click does.  Under "See
    Results" ([qIndex >= numQuestions]) the handler ends on the results
    screen, asks for the feedback on the history with the new entry and
    never asks for another item; under "Next" it stays on the screen and
    sends exactly one request for the next item. *)
Theorem next_label_matches_action h io c :
  h ∈ next_handlers →
  h io c = (c, [])
  ∨ (if Inv.isLast c
     then screen (h io c).1 = Results
          ∧ List.filter Inv.is_next (h io c).2 = []
          ∧ ∃ e, Feedback (topic c) (history (st_core c) ++ [e]) ∈ (h io c).2
     else screen (h io c).1 = screen c
          ∧ ∃ body, (h io c).2 = [AdaptiveNext body]).
Proof.
  intros Hh.
  destruct (next_handler_advances h io c Hh) as [->|(e & pct & t & ->)];
    [by left|right].
  pose proof (advance_label c e pct t io) as H. cbn zeta in H.
  destruct (Inv.isLast c); [|exact H].
  destruct H as (H1 & H2 & H3). eauto.
Qed.

Lemma next_label_matches_action_witness :
  let c := (run Sample.two_answered (initial Store.Missing)).1 in
  let io := Sample.answering (Sample.serves (Sample.mcq "q3")) in
  handleMCQNext io c = (c, [])
  ∨ (if Inv.isLast c
     then screen (handleMCQNext io c).1 = Results
          ∧ List.filter Inv.is_next (handleMCQNext io c).2 = []
          ∧ ∃ e, Feedback (topic c) (history (st_core c) ++ [e])
                 ∈ (handleMCQNext io c).2
     else screen (handleMCQNext io c).1 = screen c
          ∧ ∃ body, (handleMCQNext io c).2 = [AdaptiveNext body]).
Proof.
  cbn zeta. apply next_label_matches_action. apply handleMCQNext_next.
Defined.

Lemma retry_repeats_append_witness :
  let s := (run Sample.two_answered (initial Store.Missing)).1 in
  let io1 := Sample.answering Sample.offline in
  let io2 := Sample.again (Sample.serves (Sample.mcq "q3")) in
  let s1 := (dispatch (ClickMCQNext io1) s).1 in
  let s3 := (run [ClickMCQNext io1; ClickRetry; ClickMCQNext io2] s).1 in
  showing ErrorBox s1 = true
  ∧ ∃ e1 e2,
      history (st_core s1) = history (st_core s) ++ [e1]
      ∧ history (st_core s3) = history (st_core s) ++ [e1; e2]
      ∧ question e1 = question e2
      ∧ isCorrect e1 = isCorrect e2
      ∧ e_selected e1 = e_selected e2
      ∧ currentQ (st_core s3) = Some (Sample.mcq "q3").
Proof.
  cbn zeta.
  assert (showing McqCard (run Sample.two_answered (initial Store.Missing)).1
          = true) as H1 by (vm_compute; reflexivity).
  assert (revealed (st_l1 (run Sample.two_answered (initial Store.Missing)).1)
          = true) as H2 by (vm_compute; reflexivity).
  assert (qIndex (st_core (run Sample.two_answered (initial Store.Missing)).1)
          < numQuestions (run Sample.two_answered (initial Store.Missing)).1)%nat
    as H3 by (vm_compute; lia).
  exact (retry_repeats_append _ (Sample.answering Sample.offline)
           (Sample.again (Sample.serves (Sample.mcq "q3")))
           "Failed to fetch" (Sample.mcq "q3")
           (Sample.payload (Sample.mcq "q3")) H1 H2 H3 eq_refl eq_refl).
Defined.

End Finishing.

(** ** More on the interview: what every run keeps *)

Section InterviewInvariants.

Import Interview.

Ltac iv_unfold :=
  unfold startInterview, startRecording, stopRecording, onstop,
    submitAnswer, toggleMute, back, addMsg, speakText.

Ltac iv_guards :=
  repeat match goal with
         | H : _ && _ = true |- _ => apply andb_true_iff in H as [? ?]
         | H : bool_decide _ = true |- _ => apply bool_decide_eq_true in H
         | H : negb _ = true |- _ => apply negb_true_iff in H
         | H : _ || _ = false |- _ => apply orb_false_iff in H as [? ?]
         end.

Lemma iv_run_keeps (P : state → Prop) (Q : event → Prop) evs s :
  (∀ ev s, Q ev → P s → P (dispatch ev s)) →
  Forall Q evs → P s → P (run evs s).
Proof.
  intros Hstep Hevs. revert s. unfold run.
  induction Hevs as [|ev rest Hev _ IH]; intros s Hs; [done|].
  cbn [foldl]. apply IH. by apply Hstep.
Qed.

Lemma interview_served : Forall IvInv.served Scene.interview.
Proof.
  unfold Scene.interview.
  repeat (apply Forall_cons; split); try apply Forall_nil; cbn;
    try exact I; right; by eexists.
Qed.

Lemma dispatch_quiet ev s :
  IvInv.served ev →
  IvInv.quiet s ∧ IvInv.done_inv s →
  IvInv.quiet (dispatch ev s) ∧ IvInv.done_inv (dispatch ev s).
Proof.
  intros _ [Hs Hd]. unfold IvInv.quiet, IvInv.done_inv in *. unfold dispatch.
  destruct ev; repeat case_match; subst; try (by split); iv_guards;
    iv_unfold; repeat case_match; subst; cbn;
    (split; [by auto|]); try exact Hd; try (intros ?; congruence);
    intros _; (split; [done|by eexists]).
Qed.

(** No handler of the interview leaves a call pending when it returns,
    whatever fails: between events the status is idle or recording, so the
    controls are not disabled; and once the results are shown there is an
    analysis to show (the service's, or the "Analysis unavailable."
    fallback) with the spinner off. *)
Theorem interview_never_stays_busy globalTopic globalProficiency speech evs :
  Forall IvInv.served evs →
  let s := run evs (initial globalTopic globalProficiency speech) in
  busy s = false
  ∧ (status s = Idle ∨ status s = Recording)
  ∧ (phase s = Done → analysisPending s = false ∧ is_Some (analysis s)).
Proof.
  intros Hevs. cbn zeta.
  assert (IvInv.quiet (run evs (initial globalTopic globalProficiency speech))
          ∧ IvInv.done_inv
              (run evs (initial globalTopic globalProficiency speech)))
    as [Hs Hd].
  { apply (iv_run_keeps (fun s => IvInv.quiet s ∧ IvInv.done_inv s)
             IvInv.served); [apply dispatch_quiet|exact Hevs|].
    split; [by left|discriminate]. }
  split; [|by split].
  unfold busy. apply bool_decide_eq_false.
  rewrite !elem_of_cons, elem_of_nil.
  destruct Hs as [-> | ->]; intuition discriminate.
Qed.

Lemma interview_never_stays_busy_witness :
  let s := run Scene.interview (initial "closures" "intermediate" true) in
  busy s = false
  ∧ (status s = Idle ∨ status s = Recording)
  ∧ (phase s = Done → analysisPending s = false ∧ is_Some (analysis s)).
Proof.
  exact (interview_never_stays_busy "closures" "intermediate" true
           Scene.interview interview_served).
Defined.

(** What an event does to the speech queue: nothing, or it replaces the
    queue by one utterance or by none, or the utterance at the head ends. *)
Lemma dispatch_synth ev s :
  synth (dispatch ev s) = synth s
  ∨ (∃ text, synth (dispatch ev s) = Some [text])
  ∨ synth (dispatch ev s) = Some []
  ∨ (∃ x rest, synth s = Some (x :: rest)
               ∧ synth (dispatch ev s) = Some rest).
Proof.
  unfold dispatch.
  destruct ev; repeat case_match; subst; try (by left); iv_unfold;
    repeat case_match; subst; cbn; eauto 10.
Qed.

Lemma dispatch_queue_inv ev s :
  IvInv.served ev → IvInv.queue_inv s → IvInv.queue_inv (dispatch ev s).
Proof.
  intros _ Hinv. unfold IvInv.queue_inv in *.
  destruct (dispatch_synth ev s)
    as [->|[[text ->]|[->|(x & rest & Hs & ->)]]];
    [exact Hinv|cbn; lia|cbn; lia|].
  rewrite Hs in Hinv. cbn in Hinv. lia.
Qed.

(** The browser's speech queue never holds more than one utterance:
    [speakText] cancels what is queued before it speaks. *)
Theorem speech_queue_at_most_one globalTopic globalProficiency speech evs :
  Forall IvInv.served evs →
  match synth (run evs (initial globalTopic globalProficiency speech)) with
  | Some q => (length q ≤ 1)%nat
  | None => True
  end.
Proof.
  intros Hevs.
  apply (iv_run_keeps IvInv.queue_inv IvInv.served);
    [apply dispatch_queue_inv|exact Hevs|].
  unfold IvInv.queue_inv. destruct speech; cbn; [lia|done].
Qed.

Lemma speech_queue_at_most_one_witness :
  match synth (run Scene.interview (initial "closures" "intermediate" true))
  with
  | Some q => (length q ≤ 1)%nat
  | None => True
  end.
Proof.
  exact (speech_queue_at_most_one "closures" "intermediate" true
           Scene.interview interview_served).
Defined.

(** When the grading call is rejected, the submitted answer is in the chat
    followed by the error line, the draft is cleared (the answer has to be
    typed or spoken again), and the question, the counter and the history
    are as before, with the status back to idle. *)
Theorem grading_failure_discards_draft io s q message :
  phase s = Active → status s = Idle → Js.blank (transcript s) = false →
  currentQ s = Some q → graded io = Js.Rejected message →
  let s' := dispatch (ClickSubmit io) s in
  messages s'
  = messages s
    ++ [User (Js.trim (transcript s)); Error ("Error: " +:+ message)]
  ∧ transcript s' = ""
  ∧ history s' = history s
  ∧ (currentQ s', qNum s', phase s', status s')
    = (Some q, qNum s, Active, Idle).
Proof.
  intros Hp Hs Hb Hq Hg. cbn zeta. unfold dispatch.
  rewrite Hp, Hs, Hb. rewrite !bool_decide_eq_true_2 by done.
  cbn [negb orb andb].
  unfold submitAnswer. rewrite Hq. fold (Js.blank (transcript s)).
  rewrite Hb, Hg. cbn. rewrite <- app_assoc. by rewrite Hq, Hp.
Qed.

Lemma grading_failure_discards_draft_witness :
  let s := run Scene.drafted (initial "closures" "intermediate" true) in
  let s' := dispatch (ClickSubmit Scene.ungraded) s in
  messages s'
  = messages s
    ++ [User "A function with its scope."; Error "Error: Failed to fetch"]
  ∧ transcript s' = ""
  ∧ history s' = history s
  ∧ (currentQ s', qNum s', phase s', status s')
    = (Some Sample.opening, qNum s, Active, Idle).
Proof.
  exact (grading_failure_discards_draft Scene.ungraded
           (run Scene.drafted (initial "closures" "intermediate" true))
           Sample.opening "Failed to fetch"
           eq_refl eq_refl eq_refl eq_refl eq_refl).
Defined.

End InterviewInvariants.

(** ** The analytics pages *)

Section Analytics.

Import Quiz.

Lemma Z_of_nat_pos_Q (n : nat) : (0 < n)%nat → (0 < inject_Z (Z.of_nat n))%Q.
Proof. intros H. change 0%Q with (inject_Z 0). rewrite <- Zlt_Qlt. lia. Qed.

Lemma ratio_fin x :
  (0 < total x)%nat → Views.ratio x = Js.Fin (Views.ratioQ x).
Proof.
  intros H. unfold Views.ratio, Js.of_Z, Js.div.
  by rewrite (Qeq_bool_false_of_lt _ (Z_of_nat_pos_Q _ H)).
Qed.

Lemma ratioQ_bounds x :
  Views.within_total x → (0 <= Views.ratioQ x <= 1)%Q.
Proof.
  intros [Ht Hs]. pose proof (Z_of_nat_pos_Q _ Ht) as Hpos.
  unfold Views.ratioQ. split.
  - apply Qle_shift_div_l; [exact Hpos|]. rewrite Qmult_0_l.
    change 0%Q with (inject_Z 0). rewrite <- Zle_Qle. lia.
  - apply Qle_shift_div_r; [exact Hpos|]. rewrite Qmult_1_l.
    rewrite <- Zle_Qle. lia.
Qed.

Lemma pct_fin x :
  (0 < total x)%nat → Views.pct x = Js.of_Z (Views.pctZ x).
Proof. intros H. unfold Views.pct. by rewrite ratio_fin. Qed.

Lemma pctZ_bounds x : Views.within_total x → (0 ≤ Views.pctZ x ≤ 100)%Z.
Proof.
  intros H. destruct (ratioQ_bounds x H) as [H0 H1]. unfold Views.pctZ.
  split.
  - assert (0 = Qfloor (inject_Z 0))%Z as -> by (symmetry; apply Qfloor_Z).
    apply Qfloor_resp_le. change (inject_Z 0) with 0%Q.
    change (inject_Z 100) with 100%Q. lra.
  - assert (Qfloor (Views.ratioQ x * inject_Z 100 + (1 # 2))
            ≤ Qfloor (100 + (1 # 2)))%Z as Hle.
    { apply Qfloor_resp_le. change (inject_Z 100) with 100%Q. lra. }
    etrans; [exact Hle|]. by vm_compute.
Qed.

Lemma sum_fin l acc :
  Forall (fun x => (0 < total x)%nat) l →
  ∃ q, foldl (fun acc x => Js.add acc (Views.ratio x)) (Js.Fin acc) l
       = Js.Fin q
       ∧ (q == acc + Views.sumQ l)%Q.
Proof.
  intros Hl. revert acc.
  induction Hl as [|x l Hx _ IH]; intros acc.
  - exists acc. split; [done|]. cbn. lra.
  - cbn [foldl]. rewrite (ratio_fin x Hx). cbn [Js.add].
    destruct (IH (acc + Views.ratioQ x)%Q) as (q & -> & Hq).
    exists q. split; [done|].
    change (Views.sumQ (x :: l)) with (Views.ratioQ x + Views.sumQ l)%Q.
    lra.
Qed.

Lemma sumQ_nonneg l : Forall Views.within_total l → (0 <= Views.sumQ l)%Q.
Proof.
  induction 1 as [|x l Hx _ IH]; [cbn; lra|].
  change (Views.sumQ (x :: l)) with (Views.ratioQ x + Views.sumQ l)%Q.
  destruct (ratioQ_bounds x Hx). lra.
Qed.

Lemma sumQ_at_most l :
  Forall Views.within_total l →
  (Views.sumQ l <= inject_Z (Z.of_nat (length l)))%Q.
Proof.
  induction 1 as [|x l Hx _ IH]; [by vm_compute|].
  change (Views.sumQ (x :: l)) with (Views.ratioQ x + Views.sumQ l)%Q.
  assert (inject_Z (Z.of_nat (length (x :: l)))
          == 1 + inject_Z (Z.of_nat (length l)))%Q as ->.
  { change (length (x :: l)) with (S (length l)).
    rewrite Nat2Z.inj_succ. unfold Z.succ. rewrite inject_Z_plus.
    change (inject_Z 1) with 1%Q. lra. }
  destruct (ratioQ_bounds x Hx). lra.
Qed.

Lemma max_of_pct x l :
  Forall (fun y => (0 < total y)%nat) (x :: l) →
  ∃ b, JsMath.max_of (Views.pct <$> x :: l) = Js.of_Z b
       ∧ Forall (fun y => (Views.pctZ y ≤ b)%Z) (x :: l)
       ∧ ∃ y, y ∈ x :: l ∧ b = Views.pctZ y.
Proof.
  revert x. induction l as [|y l IH]; intros x Hall.
  - apply Forall_cons in Hall as [Hx _]. exists (Views.pctZ x).
    cbn. rewrite (pct_fin x Hx). split; [done|].
    split; [by apply Forall_singleton|]. exists x. split; [by left|done].
  - apply Forall_cons in Hall as [Hx Hrest].
    destruct (IH y Hrest) as (b & Hb & Hle & z & Hz & Hbz).
    change (JsMath.max_of (Views.pct <$> x :: y :: l))
      with (JsMath.max (Views.pct x)
              (JsMath.max_of (Views.pct <$> y :: l))).
    rewrite Hb, (pct_fin x Hx). unfold Js.of_Z, JsMath.max.
    destruct (Qle_bool (inject_Z (Views.pctZ x)) (inject_Z b)) eqn:E.
    + apply Qle_bool_iff in E. rewrite <- Zle_Qle in E.
      exists b. split; [done|]. split; [by apply Forall_cons|].
      exists z. split; [by right|done].
    + assert (b < Views.pctZ x)%Z as Hlt.
      { destruct (Z.lt_ge_cases b (Views.pctZ x)) as [?|Hge]; [done|].
        rewrite Zle_Qle in Hge. apply Qle_bool_iff in Hge. congruence. }
      exists (Views.pctZ x). split; [done|]. split.
      * apply Forall_cons. split; [lia|].
        eapply Forall_impl; [exact Hle|]. intros y' Hy'.
        cbv beta in Hy' |- *. lia.
      * exists x. split; [by left|done].
Qed.

(** For sessions whose score does not exceed a positive total (those a
    quiz without a failed fetch seals), the "Avg Score" and "Best" cards
    show whole percentages within 0..100, and "Best" is the percentage of
    one of the sessions, at least that of every session. *)
Theorem dashboard_scores_in_percent (sessions : list session) :
  Forall Views.within_total sessions →
  ∃ a b : Z,
    Views.avgScore sessions = Js.of_Z a
    ∧ Views.bestScore sessions = Js.of_Z b
    ∧ (0 ≤ a ≤ 100)%Z
    ∧ (0 ≤ b ≤ 100)%Z
    ∧ (sessions ≠ [] →
       (∃ x, x ∈ sessions ∧ Views.pct x = Js.of_Z b)
       ∧ Forall (fun y => ∃ k : Z, Views.pct y = Js.of_Z k ∧ (k ≤ b)%Z)
           sessions).
Proof.
  intros Hall. destruct sessions as [|x l].
  { exists 0%Z, 0%Z. by split_and!. }
  assert (Forall (fun y => (0 < total y)%nat) (x :: l)) as Hpos.
  { eapply Forall_impl; [exact Hall|]. by intros y [? _]. }
  destruct (max_of_pct x l Hpos) as (b & Hb & Hle & z & Hz & Hbz).
  destruct (sum_fin (x :: l) 0 Hpos) as (q & Hq & Hsum).
  set (n := inject_Z (Z.of_nat (length (x :: l)))).
  assert (0 < n)%Q as Hn by (apply Z_of_nat_pos_Q; cbn; lia).
  exists (Qfloor (q / n * inject_Z 100 + (1 # 2))), b.
  split; [|split; [exact Hb|]].
  { unfold Views.avgScore. change (Js.of_Z 0) with (Js.Fin 0) at 1.
    rewrite Hq. unfold Js.of_Z at 1. unfold Js.div. fold n.
    by rewrite (Qeq_bool_false_of_lt n Hn). }
  pose proof (sumQ_nonneg (x :: l) Hall) as Hnonneg.
  pose proof (sumQ_at_most (x :: l) Hall) as Hmost. fold n in Hmost.
  assert (0 <= q / n)%Q as Hmean.
  { apply Qle_shift_div_l; [exact Hn|]. lra. }
  assert (q / n <= 1)%Q as Hmean1.
  { apply Qle_shift_div_r; [exact Hn|]. lra. }
  change (inject_Z 100) with 100%Q.
  assert (Forall Views.within_total (x :: l)) as Hall' by exact Hall.
  rewrite Forall_forall in Hall'.
  split_and!.
  - assert (0 = Qfloor (inject_Z 0))%Z as -> by (symmetry; apply Qfloor_Z).
    apply Qfloor_resp_le. change (inject_Z 0) with 0%Q. lra.
  - assert (Qfloor (q / n * 100 + (1 # 2)) ≤ Qfloor (100 + (1 # 2)))%Z
      as Hfl by (apply Qfloor_resp_le; lra).
    etrans; [exact Hfl|]. by vm_compute.
  - subst b. apply pctZ_bounds. by apply Hall'.
  - subst b. apply pctZ_bounds. by apply Hall'.
  - intros _. split.
    + exists z. split; [exact Hz|]. subst b. apply pct_fin.
      by destruct (Hall' z Hz).
    + apply Forall_forall. intros y Hy. exists (Views.pctZ y).
      split; [apply pct_fin; by destruct (Hall' y Hy)|].
      rewrite Forall_forall in Hle. by apply Hle.
Qed.

Lemma dashboard_scores_in_percent_witness :
  ∃ a b : Z,
    Views.avgScore Scene.three_sessions = Js.of_Z a
    ∧ Views.bestScore Scene.three_sessions = Js.of_Z b
    ∧ (0 ≤ a ≤ 100)%Z
    ∧ (0 ≤ b ≤ 100)%Z
    ∧ (Scene.three_sessions ≠ [] →
       (∃ x, x ∈ Scene.three_sessions ∧ Views.pct x = Js.of_Z b)
       ∧ Forall (fun y => ∃ k : Z, Views.pct y = Js.of_Z k ∧ (k ≤ b)%Z)
           Scene.three_sessions).
Proof.
  apply dashboard_scores_in_percent. unfold Scene.three_sessions.
  repeat (apply Forall_cons; split); try apply Forall_nil;
    split; cbn; lia.
Defined.

Lemma filter_split_length {A} (f : A → bool) (l : list A) :
  (length (List.filter f l) + length (List.filter (fun h => negb (f h)) l)
   = length l)%nat.
Proof.
  induction l as [|a l IH]; [done|].
  cbn [List.filter]. destruct (f a); cbn; lia.
Qed.

(** The test detail page of a session sealed by a quiz in which every
    fetch of a next item was answered: the "Good" count is the stored
    score, "Good" and "Needs work" add up to the session's total, and the
    percentage beside the donut is a whole number within 0..100. *)
Theorem test_detail_of_sealed_session stored evs :
  Forall fetch_succeeds evs →
  Forall
    (fun x =>
       x ∈ Store.loadSessions stored
       ∨ (Views.good x = s_score x
          ∧ (Views.good x + Views.needsWork x = total x)%nat
          ∧ ∃ k : Z, Views.pct x = Js.of_Z k ∧ (0 ≤ k ≤ 100)%Z))
    (Store.loadSessions (storage (run evs (initial stored)).1)).
Proof.
  intros Hok. apply Forall_forall. intros x Hx.
  assert (counted stored (initial stored)) as Hinit.
  { split; [cbn; lia|split; [discriminate|by left]]. }
  destruct (run_counted stored evs _ Hok Hinit) as (_ & _ & Hlen).
  destruct (Hlen x Hx) as [Hold|Hcount]; [by left|].
  destruct (run_store_sound stored evs x Hx)
    as [Hold|(Hscore & _ & _ & Htotal)]; [by left|right].
  pose proof (filter_split_length passed (s_history x)) as Hsplit.
  fold (Views.good x) (Views.needsWork x) in Hsplit.
  fold (Views.good x) in Hscore.
  split; [done|]. split; [lia|].
  assert (Views.within_total x) as Hin by (split; lia).
  exists (Views.pctZ x). split; [apply pct_fin; lia|by apply pctZ_bounds].
Qed.

Lemma test_detail_of_sealed_session_witness :
  Forall
    (fun x =>
       x ∈ Store.loadSessions Store.Missing
       ∨ (Views.good x = s_score x
          ∧ (Views.good x + Views.needsWork x = total x)%nat
          ∧ ∃ k : Z, Views.pct x = Js.of_Z k ∧ (0 ≤ k ≤ 100)%Z))
    (Store.loadSessions
       (storage (run Sample.clean_quiz (initial Store.Missing)).1)).
Proof.
  exact (test_detail_of_sealed_session Store.Missing Sample.clean_quiz
           clean_quiz_fetches).
Defined.

Lemma last_fmap_snoc {A B} (f : A → B) (l : list A) (a : A) :
  last (f <$> l ++ [a]) = Some (f a).
Proof. rewrite fmap_app. apply last_snoc. Qed.

(** The trend line compares the newest session with the oldest one, as
    newest minus oldest, and ignores the sessions in between; with fewer
    than two sessions there is no trend line. *)
Theorem trend_compares_ends (newest oldest : session) (mid : list session) :
  Views.trendClass (newest :: mid ++ [oldest])
  = (let d := JsMath.sub (Views.pct newest) (Views.pct oldest) in
     if JsMath.gt d (Js.of_Z 0) then "trend-up"
     else if JsMath.gt (Js.of_Z 0) d then "trend-down"
     else "trend-flat")
  ∧ Views.trendClass [newest] = ""
  ∧ Views.trendClass [] = "".
Proof.
  split; [|by split]. unfold Views.trendClass.
  rewrite reverse_cons, reverse_app. cbn [reverse rev_append app].
  rewrite (app_comm_cons (reverse mid) [newest] oldest), last_fmap_snoc.
  rewrite length_fmap, length_app. cbn [length app fmap list_fmap head].
  by assert ((2 <=? S (length (reverse mid)) + 1)%nat = true) as ->
    by (apply Nat.leb_le; lia).
Qed.

End Analytics.
